(** * The ffmpeg input of CasparCG: packet queues, read loop, seek and start-up

    A shallow embedding of [input::implementation]
    (modules/ffmpeg/producer/input.cpp).  The object is a record, member
    functions are functions on that record, C++ exceptions are an outcome
    of a small writer/error monad, and the calls made on the collaborators
    (libavformat, the executor, the diagnostics graph, the condition
    variable) are recorded as a list of events. *)

From Stdlib Require Import String ZArith List Bool Lia.
From Stdlib Require Import Init.Byte.
Import ListNotations.
Local Open Scope Z_scope.

(* ===================================================================== *)
(** ** Machine integers *)
(* ===================================================================== *)

(** A signed [w]-bit integer is a [Z]; [wrap w z] is the value a two's
    complement machine keeps of [z].  Signed overflow is undefined in C++;
    the wrap is what the x86 targets of the program compute. *)
Definition wrap (w : Z) (z : Z) : Z :=
  (z + 2 ^ (w - 1)) mod 2 ^ w - 2 ^ (w - 1).

Definition int32 (z : Z) : Z := wrap 32 z.
Definition int64 (z : Z) : Z := wrap 64 z.

Definition in_int32 (z : Z) : Prop := - 2 ^ 31 <= z < 2 ^ 31.
Definition in_int64 (z : Z) : Prop := - 2 ^ 63 <= z < 2 ^ 63.

(* ===================================================================== *)
(** ** Constants *)
(* ===================================================================== *)

(** [static const size_t PACKET_BUFFER_COUNT = 25;] *)
Definition PACKET_BUFFER_COUNT : Z := 25.

(** Constants of the libavformat / libavcodec headers the file includes
    (libavformat 52: [AVERROR_EOF] is [AVERROR(EPIPE)], [AVERROR_IO] is
    [AVERROR(EIO)]). *)
Definition AV_TIME_BASE : Z := 1000000.
Definition AVSEEK_FLAG_BACKWARD : Z := 1.
Definition AVSEEK_FLAG_FRAME : Z := 8.
Definition AVERROR_EOF : Z := -32.
Definition AVERROR_IO : Z := -5.
Definition CODEC_TYPE_VIDEO : Z := 0.
Definition CODEC_TYPE_AUDIO : Z := 1.

(* ===================================================================== *)
(** ** Packets and the bounded queue *)
(* ===================================================================== *)

(** [aligned_buffer]: a vector of bytes. *)
Definition aligned_buffer : Type := list byte.

(** [std::make_shared<aligned_buffer>()]: the zero-length buffer pushed
    after a seek. *)
Definition flush_marker : aligned_buffer := [].

(** Modelled from the spec: [tbb::concurrent_bounded_queue] is a type of
    the TBB library, absent from the sources.  Section 4.1 gives its
    contract: a capacity fixed at construction, [try_push] that returns
    false and discards the item at capacity, a non-blocking [try_pop],
    [size] and [empty].  Items leave in the order they entered. *)
Module Queue.

Record t : Type := mk { capacity : Z; items : list aligned_buffer }.

Definition size (q : t) : Z := Z.of_nat (length (items q)).

Definition empty (q : t) : bool :=
  match items q with [] => true | _ => false end.

Definition try_push (q : t) (x : aligned_buffer) : t * bool :=
  if size q <? capacity q
  then (mk (capacity q) (items q ++ [x]), true)
  else (q, false).

Definition try_pop (q : t) : t * option aligned_buffer :=
  match items q with
  | [] => (q, None)
  | x :: rest => (mk (capacity q) rest, Some x)
  end.

(** A run of pushes from left to right; the flags are the values
    [try_push] returned, in order. *)
Fixpoint push_all (q : t) (xs : list aligned_buffer) : t * list bool :=
  match xs with
  | [] => (q, [])
  | x :: rest =>
      let (q1, ok) := try_push q x in
      let (q2, oks) := push_all q1 rest in
      (q2, ok :: oks)
  end.


End Queue.

(** The capacity of a default-constructed [tbb::concurrent_bounded_queue]:
    the library sets it to [size_t(-1) / item_size], here for a 32-bit
    [size_t] and an 8-byte [std::shared_ptr].  The input never calls
    [set_capacity]. *)
Definition tbb_default_capacity : Z := (2 ^ 32 - 1) / 8.

(** The queue members are default-constructed. *)
Definition new_queue : Queue.t := Queue.mk tbb_default_capacity [].

(* ===================================================================== *)
(** ** Codec contexts and streams *)
(* ===================================================================== *)

(** [AVRational]: numerator and denominator, both [int]. *)
Record AVRational : Type := mkRational { num : Z; den : Z }.

(** The two fields of [AVCodecContext] the input reads or writes. *)
Record AVCodecContext : Type := mkContext {
  time_base : AVRational;
  frame_number : Z
}.

(** One slot of [format_context_->streams], with what the libavcodec calls
    of [open_stream] answer for it: [decoder_found] is
    [avcodec_find_decoder(...) != nullptr], [avcodec_open_ret] is the value
    of [avcodec_open]. *)
Record AVStream : Type := mkStream {
  index : Z;
  codec_type : Z;
  codec : AVCodecContext;
  decoder_found : bool;
  avcodec_open_ret : Z
}.

(* ===================================================================== *)
(** ** Effects: events, exceptions, and the monad *)
(* ===================================================================== *)

(** Calls made on the collaborators, in program order. *)
Inductive event : Type :=
| EvSetColor (name : string)              (* graph_->set_color *)
| EvOpenInputFile                         (* av_open_input_file *)
| EvFindStreamInfo                        (* av_find_stream_info *)
| EvLogWarning (msg : string)             (* CASPAR_LOG(warning) *)
| EvLogInfo (msg : string)                (* CASPAR_LOG(info) *)
| EvLogCurrentException                   (* CASPAR_LOG_CURRENT_EXCEPTION *)
| EvReadFrame                             (* av_read_frame *)
| EvSeekFrame (ts : Z) (flags : Z)        (* av_seek_frame(ctx, -1, ts, flags) *)
| EvAddTag (name : string)                (* graph_->add_tag *)
| EvUpdateValue (name : string) (n d : Z) (* graph_->update_value, n/d *)
| EvExecutorStart                         (* executor_.start *)
| EvExecutorClear                         (* executor_.clear *)
| EvExecutorStop                          (* executor_.stop *)
| EvBeginInvoke                           (* executor_.begin_invoke(read_file) *)
| EvNotifyAll.                            (* cond_.notify_all *)

(** The exception classes the input throws. *)
Inductive exception : Type :=
| invalid_argument
| file_read_error
| invalid_operation.

(** How a call ends: a value, a thrown exception, or undefined behaviour
    (a null context dereferenced, a division by zero, a float out of the
    range of [int]). *)
Inductive outcome (A : Type) : Type :=
| Ok (a : A)
| Throw (e : exception)
| Undefined.
Arguments Ok {A} a.
Arguments Throw {A} e.
Arguments Undefined {A}.

(** A computation: the events it caused and how it ended. *)
Definition M (A : Type) : Type := list event * outcome A.

Definition ret {A} (a : A) : M A := ([], Ok a).

Definition bind {A B} (m : M A) (k : A -> M B) : M B :=
  match m with
  | (ev, Ok a) => let (ev', r) := k a in (ev ++ ev', r)
  | (ev, Throw e) => (ev, Throw e)
  | (ev, Undefined) => (ev, Undefined)
  end.

Definition emit (e : event) : M unit := ([e], Ok tt).
Definition throw {A} (e : exception) : M A := ([], Throw e).
Definition undefined {A} : M A := ([], Undefined).

Notation "x <- m ;; k" := (bind m (fun x => k))
  (at level 61, m at next level, right associativity).
Notation "m ;;; k" := (bind m (fun _ => k))
  (at level 61, right associativity).

(* ===================================================================== *)
(** ** The object *)
(* ===================================================================== *)

(** The data members of [input::implementation] that carry state.
    [running] is [executor_.is_running()]. *)
Record implementation : Type := mkImpl {
  video_codec_context_ : option AVCodecContext;
  audio_codex_context_ : option AVCodecContext;
  loop_ : bool;
  video_s_index_ : Z;
  audio_s_index_ : Z;
  start_frame_ : Z;
  end_frame_ : Z;
  eof_count_ : Z;
  video_packet_buffer_ : Queue.t;
  audio_packet_buffer_ : Queue.t;
  exception_ : option exception;
  running : bool
}.

Definition set_video_codec_context (s : implementation) c :=
  mkImpl c (audio_codex_context_ s) (loop_ s) (video_s_index_ s)
    (audio_s_index_ s) (start_frame_ s) (end_frame_ s) (eof_count_ s)
    (video_packet_buffer_ s) (audio_packet_buffer_ s) (exception_ s) (running s).

Definition set_eof_count (s : implementation) n :=
  mkImpl (video_codec_context_ s) (audio_codex_context_ s) (loop_ s)
    (video_s_index_ s) (audio_s_index_ s) (start_frame_ s) (end_frame_ s) n
    (video_packet_buffer_ s) (audio_packet_buffer_ s) (exception_ s) (running s).

Definition set_video_packet_buffer (s : implementation) q :=
  mkImpl (video_codec_context_ s) (audio_codex_context_ s) (loop_ s)
    (video_s_index_ s) (audio_s_index_ s) (start_frame_ s) (end_frame_ s)
    (eof_count_ s) q (audio_packet_buffer_ s) (exception_ s) (running s).

Definition set_audio_packet_buffer (s : implementation) q :=
  mkImpl (video_codec_context_ s) (audio_codex_context_ s) (loop_ s)
    (video_s_index_ s) (audio_s_index_ s) (start_frame_ s) (end_frame_ s)
    (eof_count_ s) (video_packet_buffer_ s) q (exception_ s) (running s).

Definition set_running (s : implementation) b :=
  mkImpl (video_codec_context_ s) (audio_codex_context_ s) (loop_ s)
    (video_s_index_ s) (audio_s_index_ s) (start_frame_ s) (end_frame_ s)
    (eof_count_ s) (video_packet_buffer_ s) (audio_packet_buffer_ s)
    (exception_ s) b.

(** The decoder, a collaborator, owns the frame counter of the contexts
    and advances it while the input runs. *)
Definition set_frame_number (c : AVCodecContext) (n : Z) : AVCodecContext :=
  mkContext (time_base c) n.

Definition decoder_sets_frame_number (s : implementation) (n : Z) :=
  match video_codec_context_ s with
  | Some c => set_video_codec_context s (Some (set_frame_number c n))
  | None =>
      mkImpl None (option_map (fun c => set_frame_number c n) (audio_codex_context_ s))
        (loop_ s) (video_s_index_ s) (audio_s_index_ s) (start_frame_ s)
        (end_frame_ s) (eof_count_ s) (video_packet_buffer_ s)
        (audio_packet_buffer_ s) (exception_ s) (running s)
  end.

(* ===================================================================== *)
(** ** Start-up helpers *)
(* ===================================================================== *)

(** The integer part of the decimal logarithm of [d >= 1], by repeated
    division; the fuel bounds the number of digits. *)
Fixpoint log10_fuel (fuel : nat) (d : Z) : Z :=
  match fuel with
  | O => 0
  | S f => if d <? 10 then 0 else 1 + log10_fuel f (d / 10)
  end.

(** The integer part of the decimal logarithm of [d >= 1], exactly. *)
Definition log10_int (d : Z) : Z := log10_fuel (S (Z.to_nat (Z.log2 d))) d.

(** [static_cast<float>(d)] for an [int] [d >= 1], as the integer it
    denotes: IEEE 754 binary32 keeps 24 significant bits and rounds to
    the nearest value, ties to the even significand.  Integers below
    [2^24] are kept as they are. *)
Definition float_of_int (d : Z) : Z :=
  let e := Z.log2 d in
  if e <? 24 then d
  else
    let unit := 2 ^ (e - 23) in
    let q := d / unit in
    let r := d mod unit in
    let half := unit / 2 in
    if (half <? r) || ((r =? half) && Z.odd q)
    then (q + 1) * unit
    else q * unit.

(** The least binary32 value whose decimal logarithm, rounded to
    binary32, reaches the integer [n]: below [10^7] the rounding never
    reaches the next integer early; from there on the logarithm of a value
    just under a power of ten is nearer to the integer than to the
    binary32 number before it. *)
Definition log10_rounds_to (n : Z) : Z :=
  if n =? 7 then 9999995
  else if n =? 8 then 99999946
  else if n =? 9 then 999998903
  else 10 ^ n.

(** [static_cast<int>(std::log10(x))] for a binary32 [x >= 1] in the
    range of [int]: the logarithm is rounded to binary32, then truncated.
    The result is the exact integer part, or one more when the rounding
    reaches the next integer. *)
Definition float_log10_int (x : Z) : Z :=
  let k := log10_int x in
  if log10_rounds_to (k + 1) <=? x then k + 1 else k.

(** [static_cast<int>(std::pow(10.0, e))]: a power of ten, and the
    truncation of a fraction below one for a negative exponent. *)
Definition pow10_int (e : Z) : Z := if e <? 0 then 0 else 10 ^ e.

(** [fix_time_base]: a null context and a numerator other than 1 are left
    alone.  For [den <= 0] the logarithm is infinite or not a number and
    its conversion to [int] is undefined. *)
Definition fix_time_base (context : option AVCodecContext)
  : M (option AVCodecContext) :=
  match context with
  | None => ret None
  | Some c =>
      if num (time_base c) =? 1 then
        if den (time_base c) <=? 0 then undefined
        else ret (Some (mkContext
                          (mkRational
                             (pow10_int
                                (float_log10_int
                                   (float_of_int (den (time_base c))) - 1))
                             (den (time_base c)))
                          (frame_number c)))
      else ret (Some c)
  end.

(** [std::find_if] over the stream slots: the first non-null stream of the
    wanted codec type. *)
Fixpoint find_stream (streams : list (option AVStream)) (type : Z)
  : option AVStream :=
  match streams with
  | [] => None
  | None :: rest => find_stream rest type
  | Some st :: rest =>
      if codec_type st =? type then Some st else find_stream rest type
  end.

(** [open_stream(codec_type, s_index)]: the context, and the value of the
    reference parameter [s_index] afterwards. *)
Definition open_stream (streams : list (option AVStream)) (type : Z) (s_index : Z)
  : option AVCodecContext * Z :=
  match find_stream streams type with
  | None => (None, s_index)
  | Some st =>
      if negb (decoder_found st) then (None, s_index)
      else if 0 <? - avcodec_open_ret st then (None, s_index)
      else (Some (codec st), index st)
  end.

(* ===================================================================== *)
(** ** Member functions *)
(* ===================================================================== *)

Definition get_default_context (s : implementation) : option AVCodecContext :=
  match video_codec_context_ s with
  | Some c => Some c
  | None => audio_codex_context_ s
  end.

(** [is_eof(errn)].  With a window the default context is dereferenced. *)
Definition is_eof (s : implementation) (errn : Z) : M bool :=
  if negb (end_frame_ s =? -1) then
    match get_default_context s with
    | Some c => ret (eof_count_ s <? frame_number c)
    | None => undefined
    end
  else ret ((errn =? AVERROR_EOF) || (errn =? AVERROR_IO)).

(** [stop()]: stops the executor and logs. *)
Definition stop (s : implementation) : M implementation :=
  emit EvExecutorStop ;;;
  emit (EvLogInfo "eof") ;;;
  ret (set_running s false).

(** The [int] division of [seek_frame] traps on a zero denominator, and
    on the one quotient that does not fit an [int], [INT_MIN / -1]. *)
Definition division_traps (tb : AVRational) : bool :=
  (den tb =? 0)
  || ((int32 (AV_TIME_BASE * num tb) =? - 2 ^ 31) && (den tb =? -1)).

(** The timestamp [seek_frame] computes where the division does not trap:
    the product and the quotient in parentheses are [int] operations, the
    outer product is 64 bits wide. *)
Definition seek_timestamp (tb : AVRational) (frame : Z) : Z :=
  int64 (frame * int32 (Z.quot (int32 (AV_TIME_BASE * num tb)) (den tb))).

(** [seek_frame(frame, flags)]; [errn] is what [av_seek_frame] returns.
    A trapping division ends the program before [av_seek_frame] is
    called.  The exception leaves before either queue is touched. *)
Definition seek_frame (s : implementation) (frame flags : Z) (errn : Z)
  : M implementation :=
  match get_default_context s with
  | None => undefined
  | Some c =>
      if division_traps (time_base c) then undefined
      else
        emit (EvSeekFrame (seek_timestamp (time_base c) frame)
                          (Z.lor flags AVSEEK_FLAG_FRAME)) ;;;
        if errn <? 0 then throw invalid_operation
        else
          let s1 := set_video_packet_buffer s
                      (fst (Queue.try_push (video_packet_buffer_ s) flush_marker)) in
          let s2 := set_audio_packet_buffer s1
                      (fst (Queue.try_push (audio_packet_buffer_ s1) flush_marker)) in
          ret s2
  end.

(** What one iteration of [read_file] gets from libavformat: the value of
    [av_read_frame], the packet it filled in, and the value [av_seek_frame]
    would return if the iteration seeks. *)
Record read_input : Type := mkRead {
  read_frame_ret : Z;
  packet_data : aligned_buffer;
  packet_stream_index : Z;
  seek_frame_ret : Z
}.

(** The loop condition of the wait at the end of [read_file]. *)
Definition wait_condition (s : implementation) : bool :=
  running s
  && (PACKET_BUFFER_COUNT <? Queue.size (audio_packet_buffer_ s))
  && (PACKET_BUFFER_COUNT <? Queue.size (video_packet_buffer_ s)).

(** The [try] block of [read_file]. *)
Definition read_file_try (s : implementation) (io : read_input)
  : M implementation :=
  emit EvReadFrame ;;;
  eof <- is_eof s (read_frame_ret io) ;;
  s1 <- (if eof : bool then
           if loop_ s then
             s' <- seek_frame s (start_frame_ s) AVSEEK_FLAG_BACKWARD
                              (seek_frame_ret io) ;;
             emit (EvAddTag "seek") ;;;
             ret (set_eof_count s'
                    (int32 (eof_count_ s' + int32 (end_frame_ s' - start_frame_ s'))))
           else stop s
         else if read_frame_ret io <? 0 then throw invalid_operation
         else if packet_stream_index io =? video_s_index_ s then
           ret (set_video_packet_buffer s
                  (fst (Queue.try_push (video_packet_buffer_ s) (packet_data io))))
         else if packet_stream_index io =? audio_s_index_ s then
           ret (set_audio_packet_buffer s
                  (fst (Queue.try_push (audio_packet_buffer_ s) (packet_data io))))
         else ret s) ;;
  emit (EvUpdateValue "input-buffer"
          (Queue.size (video_packet_buffer_ s1)) PACKET_BUFFER_COUNT) ;;;
  ret s1.

(** Where the worker is when [read_file] is over: the next iteration is
    scheduled and the worker goes on, or it is scheduled and the worker
    waits on [cond_], or the function has returned from the handler
    without scheduling anything. *)
Inductive worker : Type := Scheduled | Waiting | Returned.

(** The [while] loop around [cond_.wait], evaluated on entry and again at
    every wake-up. *)
Definition cond_wait (s : implementation) : worker :=
  if wait_condition s then Waiting else Scheduled.

(** [read_file()].  Every exception of the [try] block is thrown before
    the object is modified, so the handler runs on the state of entry. *)
Definition read_file (s : implementation) (io : read_input)
  : M (implementation * worker) :=
  match read_file_try s io with
  | (ev, Ok s1) => (ev ++ [EvBeginInvoke], Ok (s1, cond_wait s1))
  | (ev, Throw _) =>
      (ev, Ok tt) ;;;
      s' <- stop s ;;
      emit EvLogCurrentException ;;;
      ret (s', Returned)
  | (ev, Undefined) => (ev, Undefined)
  end.

(** [get_packet(buffer)]: notifies first, then pops; null when empty. *)
Definition get_packet (buffer : Queue.t) : M (Queue.t * option aligned_buffer) :=
  emit EvNotifyAll ;;;
  ret (Queue.try_pop buffer).

Definition get_video_packet (s : implementation)
  : M (implementation * option aligned_buffer) :=
  r <- get_packet (video_packet_buffer_ s) ;;
  ret (set_video_packet_buffer s (fst r), snd r).

Definition get_audio_packet (s : implementation)
  : M (implementation * option aligned_buffer) :=
  r <- get_packet (audio_packet_buffer_ s) ;;
  ret (set_audio_packet_buffer s (fst r), snd r).

Definition has_packet (s : implementation) : bool :=
  negb (Queue.empty (video_packet_buffer_ s))
  || negb (Queue.empty (audio_packet_buffer_ s)).

(** [input::is_running]. *)
Definition is_running (s : implementation) : bool := running s.

(** [~implementation()]. *)
Definition destroy (s : implementation) : M implementation :=
  emit EvExecutorClear ;;;
  emit EvExecutorStop ;;;
  emit EvNotifyAll ;;;
  emit (EvLogInfo "Stopped.") ;;;
  ret (set_running s false).

(* ===================================================================== *)
(** ** Construction *)
(* ===================================================================== *)

(** What libavformat and libavcodec answer during construction. *)
Record av_file : Type := mkFile {
  av_open_input_file_ret : Z;
  format_context_null : bool;        (* weak_format_context_ == nullptr *)
  av_find_stream_info_ret : Z;
  streams : list (option AVStream);
  av_seek_frame_ret : Z              (* for the initial seek *)
}.

(** The constructor.  The member initialisers clamp [start_frame_] but
    compute [eof_count_] from the arguments as given.  The executor runs
    from [executor_.start()] on. *)
Definition construct (loop : bool) (start_frame end_frame : Z) (f : av_file)
  : M implementation :=
  let start_frame_0 := Z.max start_frame 0 in
  let end_frame_0 := end_frame in
  let eof_count_0 := int32 (end_frame - start_frame) in
  (if (0 <? end_frame_0) && (end_frame <=? start_frame_0)
   then throw invalid_argument else ret tt) ;;;
  emit (EvSetColor "input-buffer") ;;;
  emit (EvSetColor "seek") ;;;
  emit EvOpenInputFile ;;;
  (if (av_open_input_file_ret f <? 0) || format_context_null f
   then throw file_read_error else ret tt) ;;;
  emit EvFindStreamInfo ;;;
  (if av_find_stream_info_ret f <? 0
   then throw file_read_error else ret tt) ;;;
  let (video, video_s_index) := open_stream (streams f) CODEC_TYPE_VIDEO (-1) in
  video1 <- match video with
            | None => emit (EvLogWarning "Could not open any video stream.") ;;;
                      ret video
            | Some _ => fix_time_base video
            end ;;
  let (audio, audio_s_index) := open_stream (streams f) CODEC_TYPE_AUDIO (-1) in
  video2 <- match audio with
            | None => emit (EvLogWarning "Could not open any audio stream.") ;;;
                      ret video1
            | Some _ => fix_time_base video1   (* the video context again *)
            end ;;
  (match video2, audio with
   | None, None => throw file_read_error
   | _, _ => ret tt
   end) ;;;
  let s := mkImpl video2 audio loop video_s_index audio_s_index
             start_frame_0 end_frame_0 eof_count_0 new_queue new_queue
             None false in
  s1 <- (if negb (start_frame_0 =? 0)
         then seek_frame s start_frame_0 0 (av_seek_frame_ret f)
         else ret s) ;;
  emit EvExecutorStart ;;;
  emit EvBeginInvoke ;;;
  emit (EvLogInfo "Started.") ;;;
  ret (set_running s1 true).

(* ===================================================================== *)
(** ** Runs of the object *)
(* ===================================================================== *)

(** What can happen to a constructed object: the worker runs one
    iteration (the executor runs its tasks only while it is running), a
    consumer asks for a packet, the decoder advances the frame counter. *)
Inductive action : Type :=
| ActReadFile (io : read_input)
| ActGetVideoPacket
| ActGetAudioPacket
| ActDecoder (frame_number : Z).

Definition step (s : implementation) (a : action) : M implementation :=
  match a with
  | ActReadFile io =>
      if running s then r <- read_file s io ;; ret (fst r) else ret s
  | ActGetVideoPacket => r <- get_video_packet s ;; ret (fst r)
  | ActGetAudioPacket => r <- get_audio_packet s ;; ret (fst r)
  | ActDecoder n => ret (decoder_sets_frame_number s n)
  end.

Fixpoint run (s : implementation) (acts : list action) : M implementation :=
  match acts with
  | [] => ret s
  | a :: rest => s1 <- step s a ;; run s1 rest
  end.

(** The value a computation ends with, when it ends with one. *)
Definition value {A} (m : M A) : option A :=
  match snd m with Ok a => Some a | _ => None end.

Definition events {A} (m : M A) : list event := fst m.

(** ** The state in which the member functions are defined *)

(** A default context exists and its time-base denominator is positive:
    no null pointer is dereferenced and the division of [seek_frame] does
    not trap. *)
Definition well_formed (s : implementation) : Prop :=
  exists c, get_default_context s = Some c /\ 0 < den (time_base c).

(* ===================================================================== *)
(** ** Examples and the claims as worded *)
(* ===================================================================== *)

(** An object for the examples: a video stream 1000/25000 at index 0, an
    audio stream at index 1, no window, no loop, running. *)
Definition example_video_context : AVCodecContext :=
  mkContext (mkRational 1000 25000) 0.
Definition example_audio_context : AVCodecContext :=
  mkContext (mkRational 1 48000) 0.
Definition example_object : implementation :=
  mkImpl (Some example_video_context) (Some example_audio_context)
    false 0 1 0 (-1) (-1) new_queue new_queue None true.
Definition example_packet : aligned_buffer := ["001"%byte; "002"%byte].
Definition example_video_read : read_input := mkRead 0 example_packet 0 0.
Definition example_audio_read : read_input := mkRead 0 example_packet 1 0.

(** C1 as the claim words it, for the queue the object holds: after any
    run of pushes the queue holds at most 25 items. *)
Definition holds_at_most_25 (xs : list aligned_buffer) : Prop :=
  Queue.size (fst (Queue.push_all new_queue xs)) <= PACKET_BUFFER_COUNT.


(** An object with a window of 100 frames that loops; the decoder has
    counted 50 frames. *)
Definition example_window_object : implementation :=
  mkImpl (Some (mkContext (mkRational 1000 25000) 50)) None
    true 0 (-1) 0 100 100 new_queue new_queue None true.

(** [av_read_frame] at the end of the file. *)
Definition example_eof_read : read_input := mkRead AVERROR_EOF [] 0 0.

(** [av_read_frame] failing with [AVERROR(EPERM)]. *)
Definition example_failed_read : read_input := mkRead (-1) [] 0 0.

(** "The external library signals EOF": the two values of [av_read_frame]
    that stand for the end of the input. *)
Definition library_signals_eof (errn : Z) : bool :=
  (errn =? AVERROR_EOF) || (errn =? AVERROR_IO).

Definition window_configured (s : implementation) : bool :=
  negb (end_frame_ s =? -1).

Definition counter_passed (s : implementation) : bool :=
  match get_default_context s with
  | Some c => eof_count_ s <? frame_number c
  | None => false
  end.


(** C3 as the claim words it: the library's EOF, or with a window the
    counter, makes an end of stream. *)
Definition end_of_stream_as_claimed (s : implementation) (errn : Z) : bool :=
  library_signals_eof errn || (window_configured s && counter_passed s).

(** C4 as the claim words it: the fault is stored in the object, and a
    call of the facade reports it. *)
Definition fault_recorded (s : implementation) : Prop :=
  exception_ s <> None.

Definition facade_reports_fault (s : implementation) : Prop :=
  (exists e, snd (get_video_packet s) = Throw e)
  \/ (exists e, snd (get_audio_packet s) = Throw e).


(** A looping object without a window whose video queue still holds a
    packet. *)
Definition example_loop_object : implementation :=
  mkImpl (Some example_video_context) (Some example_audio_context)
    true 0 1 0 (-1) (-1)
    (Queue.mk tbb_default_capacity [example_packet]) new_queue None true.

(** What [fix_time_base] leaves in a context when it is defined. *)
Definition fixed_time_base (c : AVCodecContext) : AVCodecContext :=
  if num (time_base c) =? 1
  then mkContext (mkRational
                    (pow10_int
                       (float_log10_int (float_of_int (den (time_base c))) - 1))
                    (den (time_base c)))
                 (frame_number c)
  else c.

(** The number of decimal digits of [d >= 0], by repeated division. *)
Fixpoint digits_fuel (fuel : nat) (d : Z) : Z :=
  match fuel with
  | O => 1
  | S f => if d <? 10 then 1 else 1 + digits_fuel f (d / 10)
  end.

Definition digits (d : Z) : Z := digits_fuel (S (Z.to_nat (Z.log2 d))) d.

(** C7 as the claim words it: the numerator after the correction. *)
Definition numerator_as_claimed (d : Z) : Z := 10 ^ (digits d - 1).

(** C8 as the claim words it: the division applied last. *)
Definition timestamp_as_claimed (tb : AVRational) (frame : Z) : Z :=
  Z.quot (frame * num tb * AV_TIME_BASE) (den tb).

(** An object whose video stream has the time base 1001/30000. *)
Definition example_ntsc_object : implementation :=
  mkImpl (Some (mkContext (mkRational 1001 30000) 0)) None
    false 0 (-1) 0 (-1) (-1) new_queue new_queue None true.

(** Files for the examples: one video stream with the time base 1/25000,
    alone and with an audio stream 1/48000. *)
Definition example_video_stream : AVStream :=
  mkStream 0 CODEC_TYPE_VIDEO (mkContext (mkRational 1 25000) 0) true 0.
Definition example_audio_stream : AVStream :=
  mkStream 1 CODEC_TYPE_AUDIO (mkContext (mkRational 1 48000) 0) true 0.
Definition example_video_file : av_file :=
  mkFile 0 false 0 [Some example_video_stream] 0.
Definition example_av_file : av_file :=
  mkFile 0 false 0 [Some example_video_stream; Some example_audio_stream] 0.

(** The packets [av_read_frame] delivers carry the index of a stream of
    the file, which is not negative. *)
Definition valid_action (a : action) : Prop :=
  match a with
  | ActReadFile io => 0 <= packet_stream_index io
  | _ => True
  end.

(** C6 as the claim words it: [get_audio_packet] returns null. *)
Definition audio_packet_absent (s : implementation) : Prop :=
  option_map snd (value (get_audio_packet s)) = Some None.

(** The state of an object that opened a video stream and no audio
    stream: the audio index is still -1 and the audio queue holds nothing
    but flush markers. *)
Definition video_only (s : implementation) : Prop :=
  (exists c, video_codec_context_ s = Some c /\ 0 < den (time_base c))
  /\ audio_s_index_ s = -1
  /\ Forall (fun b => b = flush_marker) (Queue.items (audio_packet_buffer_ s)).

(** An object that has not sought and will not: it does not loop and its
    audio queue is empty. *)
Definition never_seeks (s : implementation) : Prop :=
  loop_ s = false /\ Queue.items (audio_packet_buffer_ s) = [].

(* ===================================================================== *)
(** ** Drivers and measures for the further properties *)
(* ===================================================================== *)

(** [n] calls of [get_video_packet] in a row, with what each returned. *)
Fixpoint get_video_packets (n : nat) (s : implementation)
  : M (implementation * list (option aligned_buffer)) :=
  match n with
  | O => ret (s, [])
  | S k =>
      r <- get_video_packet s ;;
      rs <- get_video_packets k (fst r) ;;
      ret (fst rs, snd r :: snd rs)
  end.

(** [n] calls of [get_audio_packet] in a row. *)
Fixpoint get_audio_packets (n : nat) (s : implementation)
  : M (implementation * list (option aligned_buffer)) :=
  match n with
  | O => ret (s, [])
  | S k =>
      r <- get_audio_packet s ;;
      rs <- get_audio_packets k (fst r) ;;
      ret (fst rs, snd r :: snd rs)
  end.

(** The packets of a list of reads that [read_file] sends to the video
    queue, and those it sends to the audio queue: the video index is
    compared first. *)
Definition to_video (s : implementation) (io : read_input) : bool :=
  packet_stream_index io =? video_s_index_ s.

Definition to_audio (s : implementation) (io : read_input) : bool :=
  negb (packet_stream_index io =? video_s_index_ s)
  && (packet_stream_index io =? audio_s_index_ s).

(** The number of ["seek"] tags among the events: one is added at each
    loop restart. *)
Definition is_seek_tag (e : event) : bool :=
  match e with
  | EvAddTag name => String.eqb name "seek"
  | _ => false
  end.

Definition seek_tags (ev : list event) : Z :=
  Z.of_nat (length (filter is_seek_tag ev)).

(** A stream slot that [open_stream] passes over when it looks for
    [type]: a null slot or a stream of another codec type. *)
Definition other_slot (type : Z) (slot : option AVStream) : Prop :=
  match slot with
  | None => True
  | Some st => codec_type st <> type
  end.

(** The events of a construction that start the worker. *)
Definition starts_worker (e : event) : bool :=
  match e with
  | EvExecutorStart | EvBeginInvoke => true
  | _ => false
  end.

(** A list of events in which the worker is not started. *)
Definition quiet (ev : list event) : Prop := filter starts_worker ev = [].

(** A construction that starts the worker as its last act, and only when
    it returns an object. *)
Definition starts_worker_last (m : M implementation) : Prop :=
  match snd m with
  | Ok s =>
      is_running s = true
      /\ exists ev0,
           fst m = ev0 ++ [EvExecutorStart; EvBeginInvoke; EvLogInfo "Started."]
           /\ quiet ev0
  | _ => quiet (fst m)
  end.

(** The conditions the constructor tests, as it tests them. *)
Definition window_rejected (start_frame end_frame : Z) : bool :=
  (0 <? end_frame) && (end_frame <=? Z.max start_frame 0).

Definition open_failed (f : av_file) : bool :=
  (av_open_input_file_ret f <? 0) || format_context_null f.

Definition stream_info_failed (f : av_file) : bool :=
  av_find_stream_info_ret f <? 0.

Definition no_stream_opened (f : av_file) : Prop :=
  fst (open_stream (streams f) CODEC_TYPE_VIDEO (-1)) = None
  /\ fst (open_stream (streams f) CODEC_TYPE_AUDIO (-1)) = None.

(** A computation that throws only exceptions with the property [P]. *)
Definition throws_only {A : Type} (P : exception -> Prop) (m : M A) : Prop :=
  forall e, snd m = Throw e -> P e.
(** ** Tactics for the monad *)

Ltac unfold_monad :=
  unfold bind, ret, emit, throw, undefined in *.

(** Case analysis on the innermost scrutinee of a [match] or [if]. *)
Ltac break_match :=
  match goal with
  | |- context [match ?x with _ => _ end] =>
      lazymatch x with
      | context [match _ with _ => _ end] => fail
      | _ => destruct x eqn:?
      end
  | H : context [match ?x with _ => _ end] |- _ =>
      lazymatch x with
      | context [match _ with _ => _ end] => fail
      | _ => destruct x eqn:?
      end
  end.

Ltac unfold_members :=
  unfold read_file, read_file_try, is_eof, seek_frame, stop,
    get_video_packet, get_audio_packet, get_packet, destroy in *.

(* ===================================================================== *)
(** * Properties *)
(* ===================================================================== *)

(** ** The queue *)


Lemma try_push_true (q : Queue.t) (x : aligned_buffer) :
  Queue.size q < Queue.capacity q ->
  Queue.try_push q x = (Queue.mk (Queue.capacity q) (Queue.items q ++ [x]), true).
Proof.
  intros H. unfold Queue.try_push.
  destruct (Z.ltb_spec (Queue.size q) (Queue.capacity q)); [reflexivity | lia].
Qed.

Lemma try_push_false (q : Queue.t) (x : aligned_buffer) :
  Queue.capacity q <= Queue.size q -> Queue.try_push q x = (q, false).
Proof.
  intros H. unfold Queue.try_push.
  destruct (Z.ltb_spec (Queue.size q) (Queue.capacity q)); [lia | reflexivity].
Qed.

Lemma try_push_flag (q : Queue.t) (x : aligned_buffer) :
  snd (Queue.try_push q x) = false <-> Queue.capacity q <= Queue.size q.
Proof.
  unfold Queue.try_push.
  destruct (Z.ltb_spec (Queue.size q) (Queue.capacity q)); cbn; split;
    intros; (discriminate || lia || reflexivity).
Qed.

Lemma try_push_capacity (q : Queue.t) (x : aligned_buffer) :
  Queue.capacity (fst (Queue.try_push q x)) = Queue.capacity q.
Proof. unfold Queue.try_push. destruct (_ <? _); reflexivity. Qed.

Lemma try_push_size (q : Queue.t) (x : aligned_buffer) :
  Queue.size q <= Queue.capacity q ->
  Queue.size (fst (Queue.try_push q x)) <= Queue.capacity q.
Proof.
  intros H. unfold Queue.try_push.
  destruct (Z.ltb_spec (Queue.size q) (Queue.capacity q)); cbn; [|assumption].
  unfold Queue.size in *. cbn. rewrite length_app. cbn. lia.
Qed.

Lemma try_pop_capacity (q : Queue.t) :
  Queue.capacity (fst (Queue.try_pop q)) = Queue.capacity q.
Proof. unfold Queue.try_pop. destruct (Queue.items q); reflexivity. Qed.

Lemma push_all_bound (xs : list aligned_buffer) : forall q : Queue.t,
  Queue.size q <= Queue.capacity q ->
  Queue.size (fst (Queue.push_all q xs)) <= Queue.capacity q
  /\ Queue.capacity (fst (Queue.push_all q xs)) = Queue.capacity q.
Proof.
  induction xs as [|x xs IH]; intros q H; cbn; [split; [assumption|reflexivity]|].
  destruct (Queue.try_push q x) as [q1 ok] eqn:E1.
  destruct (Queue.push_all q1 xs) as [q2 oks] eqn:E2. cbn.
  assert (Hc : Queue.capacity q1 = Queue.capacity q)
    by (change q1 with (fst (q1, ok)); rewrite <- E1; apply try_push_capacity).
  assert (Hs : Queue.size q1 <= Queue.capacity q1).
  { rewrite Hc. change q1 with (fst (q1, ok)). rewrite <- E1.
    now apply try_push_size. }
  destruct (IH q1 Hs) as [IH1 IH2]. rewrite E2 in IH1, IH2. cbn in IH1, IH2.
  split; congruence.
Qed.


Lemma division_defined (tb : AVRational) :
  0 < den tb -> division_traps tb = false.
Proof.
  intros H. unfold division_traps.
  destruct (Z.eqb_spec (den tb) 0); [lia|].
  destruct (Z.eqb_spec (den tb) (-1)); [lia|].
  now rewrite andb_false_r.
Qed.

Lemma read_file_defined (s : implementation) (io : read_input) :
  well_formed s -> exists ev s' w, read_file s io = (ev, Ok (s', w)).
Proof.
  intros (c & Hc & Hden).
  apply division_defined in Hden.
  unfold_members. rewrite Hc, Hden. unfold_monad.
  repeat (break_match; cbn in * ); try discriminate; eauto.
Qed.

Lemma read_file_never_throws (s : implementation) (io : read_input) ev e :
  read_file s io <> (ev, Throw e).
Proof.
  unfold_members. unfold_monad. intros H.
  repeat (break_match; cbn in * ); discriminate.
Qed.

Lemma read_file_worker (s : implementation) (io : read_input) ev s' w :
  read_file s io = (ev, Ok (s', w)) ->
  (w = Waiting <-> wait_condition s' = true).
Proof.
  unfold_members. unfold_monad. intros H.
  repeat (break_match; cbn in * ); try discriminate.
  all: inversion H; subst; clear H; unfold cond_wait.
  all: try (destruct (wait_condition _); split; intros;
            (discriminate || reflexivity)).
  all: unfold wait_condition; cbn; split; discriminate.
Qed.

Lemma wait_condition_iff (s : implementation) :
  wait_condition s = true <->
  is_running s = true
  /\ PACKET_BUFFER_COUNT < Queue.size (video_packet_buffer_ s)
  /\ PACKET_BUFFER_COUNT < Queue.size (audio_packet_buffer_ s).
Proof.
  unfold wait_condition, is_running.
  rewrite !andb_true_iff, !Z.ltb_lt. tauto.
Qed.



(** ** Seeking *)

Lemma seek_frame_ok (s : implementation) (c : AVCodecContext)
    (frame flags errn : Z) :
  get_default_context s = Some c ->
  0 < den (time_base c) ->
  0 <= errn ->
  seek_frame s frame flags errn
  = ([EvSeekFrame (seek_timestamp (time_base c) frame)
                  (Z.lor flags AVSEEK_FLAG_FRAME)],
     Ok (set_audio_packet_buffer
           (set_video_packet_buffer s
              (fst (Queue.try_push (video_packet_buffer_ s) flush_marker)))
           (fst (Queue.try_push (audio_packet_buffer_ s) flush_marker)))).
Proof.
  intros Hc Hd He. unfold seek_frame. rewrite Hc.
  apply division_defined in Hd. rewrite Hd.
  assert (Hn : (errn <? 0) = false) by (apply Z.ltb_ge; lia).
  cbn. rewrite Hn. reflexivity.
Qed.

Lemma seek_frame_fails (s : implementation) (c : AVCodecContext)
    (frame flags errn : Z) :
  get_default_context s = Some c ->
  0 < den (time_base c) ->
  errn < 0 ->
  seek_frame s frame flags errn
  = ([EvSeekFrame (seek_timestamp (time_base c) frame)
                  (Z.lor flags AVSEEK_FLAG_FRAME)],
     Throw invalid_operation).
Proof.
  intros Hc Hd He. unfold seek_frame. rewrite Hc.
  apply division_defined in Hd. rewrite Hd.
  apply Z.ltb_lt in He. cbn. rewrite He. reflexivity.
Qed.

(** Where the division traps nothing is sought: a zero denominator, and
    the time base 33554432/-1, whose product with [AV_TIME_BASE] wraps to
    [INT_MIN]. *)
Lemma seek_frame_traps :
  seek_frame (set_video_codec_context example_object
                (Some (mkContext (mkRational 33554432 (-1)) 0))) 1 0 0
  = ([], Undefined)
  /\ seek_frame (set_video_codec_context example_object
                   (Some (mkContext (mkRational 1 0) 0))) 1 0 0
     = ([], Undefined)
  /\ (forall tb, division_traps tb = true <->
                 den tb = 0
                 \/ (int32 (AV_TIME_BASE * num tb) = - 2 ^ 31 /\ den tb = -1)).
Proof.
  split; [vm_compute; reflexivity|]. split; [vm_compute; reflexivity|].
  intros tb. unfold division_traps.
  rewrite orb_true_iff, andb_true_iff, !Z.eqb_eq. tauto.
Qed.

Lemma wrap_in_range (w z : Z) :
  0 < w -> - 2 ^ (w - 1) <= z < 2 ^ (w - 1) -> wrap w z = z.
Proof.
  intros Hw Hz. unfold wrap.
  assert (E : 2 ^ w = 2 * 2 ^ (w - 1)).
  { replace w with (Z.succ (w - 1)) at 1 by lia. apply Z.pow_succ_r. lia. }
  rewrite Z.mod_small; lia.
Qed.

Lemma int32_in_range (z : Z) : in_int32 z -> int32 z = z.
Proof. intros H. apply wrap_in_range; [lia | exact H]. Qed.

Lemma int64_in_range (z : Z) : in_int64 z -> int64 z = z.
Proof. intros H. apply wrap_in_range; [lia | exact H]. Qed.

(** ** Construction *)

Lemma bind_ok {A B : Type} (m : M A) (k : A -> M B) (ev : list event) (b : B) :
  bind m k = (ev, Ok b) ->
  exists ev1 a ev2, m = (ev1, Ok a) /\ k a = (ev2, Ok b) /\ ev = ev1 ++ ev2.
Proof.
  unfold bind. destruct m as [ev1 [a | e |]]; try discriminate.
  destruct (k a) as [ev2 r] eqn:E. intros H. inversion H; subst.
  exists ev1, a, ev2. repeat split; assumption.
Qed.

Lemma fix_time_base_inv (v r : option AVCodecContext) (ev : list event) :
  fix_time_base v = (ev, Ok r) ->
  ev = [] /\ r = option_map fixed_time_base v.
Proof.
  unfold fix_time_base, fixed_time_base. unfold_monad.
  destruct v as [c|]; cbn [option_map].
  - destruct (num (time_base c) =? 1).
    + destruct (den (time_base c) <=? 0); intros E; inversion E; subst.
      split; reflexivity.
    + intros E; inversion E; subst. split; reflexivity.
  - intros E; inversion E; subst. split; reflexivity.
Qed.

Lemma fixed_time_base_twice (c : AVCodecContext) :
  fixed_time_base (fixed_time_base c) = fixed_time_base c.
Proof.
  unfold fixed_time_base.
  destruct (Z.eqb_spec (num (time_base c)) 1) as [E | E].
  - cbn [time_base num den frame_number].
    set (n := pow10_int _). destruct (Z.eqb_spec n 1); reflexivity.
  - destruct (Z.eqb_spec (num (time_base c)) 1); [contradiction | reflexivity].
Qed.

Lemma seek_frame_inv (s s' : implementation) (frame flags errn : Z) ev :
  seek_frame s frame flags errn = (ev, Ok s') ->
  s' = set_audio_packet_buffer
         (set_video_packet_buffer s
            (fst (Queue.try_push (video_packet_buffer_ s) flush_marker)))
         (fst (Queue.try_push (audio_packet_buffer_ s) flush_marker)).
Proof.
  unfold seek_frame. unfold_monad.
  destruct (get_default_context s) as [c|]; [|discriminate].
  destruct (division_traps (time_base c)); [discriminate|].
  destruct (errn <? 0); [discriminate|].
  intros E; inversion E; subst. reflexivity.
Qed.

Lemma seek_frame_events (s : implementation) (frame flags errn : Z) :
  events (seek_frame s frame flags errn) = []
  \/ exists ts, events (seek_frame s frame flags errn)
                = [EvSeekFrame ts (Z.lor flags AVSEEK_FLAG_FRAME)].
Proof.
  unfold seek_frame. unfold_monad.
  destruct (get_default_context s) as [c|]; [|now left].
  destruct (division_traps (time_base c)); [now left|].
  right. exists (seek_timestamp (time_base c) frame).
  destruct (errn <? 0); reflexivity.
Qed.

Ltac bind_inv H :=
  let ev1 := fresh "ev" in
  let a := fresh "a" in
  let ev2 := fresh "ev" in
  let H1 := fresh "H" in
  let E := fresh "E" in
  apply bind_ok in H; destruct H as (ev1 & a & ev2 & H1 & H & E).

Lemma construct_inv (loop : bool) (sf ef : Z) (f : av_file) ev s :
  construct loop sf ef f = (ev, Ok s) ->
  (0 <? ef) && (ef <=? Z.max sf 0) = false
  /\ loop_ s = loop
  /\ start_frame_ s = Z.max sf 0
  /\ end_frame_ s = ef
  /\ eof_count_ s = int32 (ef - sf)
  /\ running s = true
  /\ exception_ s = None
  /\ video_codec_context_ s
     = option_map fixed_time_base (fst (open_stream (streams f) CODEC_TYPE_VIDEO (-1)))
  /\ video_s_index_ s = snd (open_stream (streams f) CODEC_TYPE_VIDEO (-1))
  /\ audio_codex_context_ s = fst (open_stream (streams f) CODEC_TYPE_AUDIO (-1))
  /\ audio_s_index_ s = snd (open_stream (streams f) CODEC_TYPE_AUDIO (-1))
  /\ (Z.max sf 0 = 0 ->
      video_packet_buffer_ s = new_queue /\ audio_packet_buffer_ s = new_queue)
  /\ (Z.max sf 0 <> 0 ->
      video_packet_buffer_ s = Queue.mk tbb_default_capacity [flush_marker]
      /\ audio_packet_buffer_ s = Queue.mk tbb_default_capacity [flush_marker]).
Proof.
  unfold construct. intros H.
  destruct ((0 <? ef) && (ef <=? Z.max sf 0)) eqn:Ewin; [discriminate H|].
  do 6 (bind_inv H; match goal with E : _ = _ ++ _ |- _ => clear E end).
  destruct (open_stream (streams f) CODEC_TYPE_VIDEO (-1)) as [video vidx] eqn:EV.
  bind_inv H.
  destruct (open_stream (streams f) CODEC_TYPE_AUDIO (-1)) as [audio aidx] eqn:EA.
  do 3 bind_inv H.
  assert (Ha6 : a6 = option_map fixed_time_base video).
  { destruct video as [vc|].
    - now apply fix_time_base_inv in H7.
    - cbn in H7. now inversion H7. }
  assert (Ha7 : a7 = option_map fixed_time_base video).
  { destruct audio as [ac|].
    - apply fix_time_base_inv in H8. destruct H8 as [_ ->]. subst a6.
      destruct video as [vc|]; cbn [option_map]; [|reflexivity].
      now rewrite fixed_time_base_twice.
    - cbn in H8. inversion H8. congruence. }
  clear H7 H8 Ha6. subst a7.
  bind_inv H. cbn in H. inversion H; subst s; clear H.
  cbn [fst snd].
  match goal with
  | Hs : (if negb (Z.max sf 0 =? 0) then _ else _) = (_, Ok ?s1) |- _ =>
      destruct (Z.eqb_spec (Z.max sf 0) 0) as [Ez | Ez]; cbn [negb] in Hs;
      [ inversion Hs | apply seek_frame_inv in Hs; rewrite Hs ]
  end.
  - cbn. repeat split; congruence.
  - cbn. repeat split; congruence.
Qed.

Lemma fix_time_base_defined (c : AVCodecContext) :
  0 < den (time_base c) ->
  fix_time_base (Some c) = ret (Some (fixed_time_base c)).
Proof.
  intros Hd. unfold fix_time_base, fixed_time_base.
  destruct (num (time_base c) =? 1); [|reflexivity].
  destruct (Z.leb_spec (den (time_base c)) 0); [lia | reflexivity].
Qed.

Lemma fixed_time_base_den (c : AVCodecContext) :
  den (time_base (fixed_time_base c)) = den (time_base c).
Proof.
  unfold fixed_time_base. destruct (num (time_base c) =? 1); reflexivity.
Qed.

(** Construction succeeds when the window is valid, the file opens, its
    stream information is found, a video stream opens with a positive
    time-base denominator, and the initial seek, if any, succeeds. *)
Lemma construct_succeeds (loop : bool) (sf ef : Z) (f : av_file)
    (vc : AVCodecContext) (vidx : Z) :
  (0 <? ef) && (ef <=? Z.max sf 0) = false ->
  0 <= av_open_input_file_ret f ->
  format_context_null f = false ->
  0 <= av_find_stream_info_ret f ->
  open_stream (streams f) CODEC_TYPE_VIDEO (-1) = (Some vc, vidx) ->
  0 < den (time_base vc) ->
  0 <= av_seek_frame_ret f ->
  exists ev s, construct loop sf ef f = (ev, Ok s).
Proof.
  intros Hwin Ho Hn Hf Hv Hd Hs.
  unfold construct. rewrite Hwin, Hv, Hn.
  assert (E1 : (av_open_input_file_ret f <? 0) = false) by (apply Z.ltb_ge; lia).
  assert (E2 : (av_find_stream_info_ret f <? 0) = false) by (apply Z.ltb_ge; lia).
  rewrite E1, E2. cbn [orb].
  rewrite (fix_time_base_defined vc Hd).
  destruct (open_stream (streams f) CODEC_TYPE_AUDIO (-1)) as [audio aidx].
  assert (Hd2 : 0 < den (time_base (fixed_time_base vc)))
    by (rewrite fixed_time_base_den; exact Hd).
  assert (Hd3 : 0 < den (time_base (fixed_time_base (fixed_time_base vc))))
    by (rewrite fixed_time_base_den; exact Hd2).
  destruct audio as [ac|].
  - unfold bind at 8. cbn [ret]. cbn [bind ret emit app].
    rewrite (fix_time_base_defined _ Hd2). cbn [bind ret emit app].
    destruct (Z.eqb_spec (Z.max sf 0) 0); cbn [negb].
    + cbn. eauto.
    + erewrite seek_frame_ok; [cbn; eauto | reflexivity | cbn; lia | lia].
  - cbn [bind ret emit app].
    destruct (Z.eqb_spec (Z.max sf 0) 0); cbn [negb].
    + cbn. eauto.
    + erewrite seek_frame_ok; [cbn; eauto | reflexivity | cbn; lia | lia].
Qed.

(** ** Decimal digits *)

Lemma digits_fuel_log10 (fuel : nat) : forall d : Z,
  digits_fuel fuel d = log10_fuel fuel d + 1.
Proof.
  induction fuel as [|f IH]; intros d; cbn [digits_fuel log10_fuel].
  - reflexivity.
  - destruct (d <? 10); [reflexivity|]. rewrite IH. lia.
Qed.

Lemma digits_log10 (d : Z) : log10_int d = digits d - 1.
Proof. unfold digits, log10_int. rewrite digits_fuel_log10. lia. Qed.

(** [digits] counts decimal digits: [10^(digits d - 1) <= d < 10^(digits d)]. *)
Lemma digits_fuel_spec (fuel : nat) : forall d : Z,
  1 <= d -> Z.log2 d < Z.of_nat fuel ->
  1 <= digits_fuel fuel d
  /\ 10 ^ (digits_fuel fuel d - 1) <= d < 10 ^ (digits_fuel fuel d).
Proof.
  induction fuel as [|f IH]; intros d Hd Hl.
  - pose proof (Z.log2_nonneg d). lia.
  - cbn [digits_fuel]. destruct (Z.ltb_spec d 10) as [Hlt | Hge].
    + cbn. lia.
    + assert (Hq : 1 <= d / 10) by (apply Z.div_le_lower_bound; lia).
      assert (Hl2 : Z.log2 (d / 10) < Z.of_nat f).
      { assert (d / 10 <= d / 2).
        { apply Z.div_le_compat_l; lia. }
        assert (Z.log2 (d / 10) <= Z.log2 (d / 2)) by (apply Z.log2_le_mono; lia).
        assert (Z.log2 (d / 2) = Z.log2 d - 1).
        { rewrite <- Z.div2_div, Z.div2_spec, Z.log2_shiftr by lia.
          pose proof (Z.log2_nonneg d).
          assert (1 <= Z.log2 d) by (apply Z.log2_le_pow2; cbn; lia).
          lia. }
        lia. }
      destruct (IH (d / 10) Hq Hl2) as (Hk & Hlo & Hhi).
      set (k := digits_fuel f (d / 10)) in *.
      replace (1 + k - 1) with k by lia.
      assert (E1 : 10 ^ k = 10 * 10 ^ (k - 1)).
      { replace k with (Z.succ (k - 1)) at 1 by lia. apply Z.pow_succ_r. lia. }
      assert (E2 : 10 ^ (1 + k) = 10 * 10 ^ k).
      { replace (1 + k) with (Z.succ k) by lia. apply Z.pow_succ_r. lia. }
      pose proof (Z.div_mod d 10 ltac:(lia)).
      pose proof (Z.mod_pos_bound d 10 ltac:(lia)).
      lia.
Qed.

Lemma digits_spec (d : Z) :
  1 <= d -> 1 <= digits d /\ 10 ^ (digits d - 1) <= d < 10 ^ (digits d).
Proof.
  intros Hd. unfold digits. apply digits_fuel_spec; [exact Hd|].
  pose proof (Z.log2_nonneg d). lia.
Qed.

Lemma digits_small (d : Z) : d < 10 -> digits d = 1.
Proof.
  intros H. unfold digits. cbn [digits_fuel].
  destruct (Z.ltb_spec d 10); [reflexivity | lia].
Qed.

Lemma digits_large (d : Z) : 10 <= d -> 2 <= digits d.
Proof.
  intros H. destruct (digits_spec d ltac:(lia)) as (H1 & _ & Hhi).
  destruct (Z.eq_dec (digits d) 1) as [E | E]; [|lia].
  rewrite E in Hhi. cbn in Hhi. lia.
Qed.

(** ** The binary32 logarithm *)

Lemma log10_int_bounds (d : Z) :
  1 <= d ->
  0 <= log10_int d /\ 10 ^ log10_int d <= d < 10 ^ (log10_int d + 1).
Proof.
  intros Hd. destruct (digits_spec d Hd) as (H1 & Hlo & Hhi).
  rewrite digits_log10.
  replace (digits d - 1 + 1) with (digits d) by lia. lia.
Qed.

Lemma log10_int_unique (d k : Z) :
  0 <= k -> 10 ^ k <= d < 10 ^ (k + 1) -> log10_int d = k.
Proof.
  intros Hk [Hlo Hhi].
  assert (Hd : 1 <= d).
  { assert (0 < 10 ^ k) by (apply Z.pow_pos_nonneg; lia). lia. }
  destruct (log10_int_bounds d Hd) as (H0 & Hlo' & Hhi').
  destruct (Z.lt_trichotomy (log10_int d) k) as [Hlt | [Heq | Hgt]].
  - assert (10 ^ (log10_int d + 1) <= 10 ^ k)
      by (apply Z.pow_le_mono_r; lia).
    lia.
  - exact Heq.
  - assert (10 ^ (k + 1) <= 10 ^ log10_int d)
      by (apply Z.pow_le_mono_r; lia).
    lia.
Qed.

Lemma float_of_int_small (d : Z) :
  1 <= d < 2 ^ 24 -> float_of_int d = d.
Proof.
  intros [Hlo Hhi]. unfold float_of_int.
  assert (Z.log2 d < 24) by (apply Z.log2_lt_pow2; lia).
  destruct (Z.ltb_spec (Z.log2 d) 24); [reflexivity | lia].
Qed.

(** Below 9999995 the conversion to binary32 is exact and the rounding of
    the logarithm does not reach the next integer. *)
Lemma float_log10_exact (d : Z) :
  1 <= d < 9999995 -> float_log10_int (float_of_int d) = log10_int d.
Proof.
  intros [Hlo Hhi].
  rewrite float_of_int_small by (change (2 ^ 24) with 16777216; lia).
  unfold float_log10_int.
  destruct (log10_int_bounds d Hlo) as (H0 & Hl & Hu).
  remember (log10_int d) as k eqn:Ek.
  assert (Hlt : d < log10_rounds_to (k + 1)).
  { unfold log10_rounds_to.
    destruct (Z.eqb_spec (k + 1) 7); [lia|].
    destruct (Z.eqb_spec (k + 1) 8) as [E | _].
    { replace k with 7 in Hl by lia. change (10 ^ 7) with 10000000 in Hl. lia. }
    destruct (Z.eqb_spec (k + 1) 9) as [E | _].
    { replace k with 8 in Hl by lia. change (10 ^ 8) with 100000000 in Hl. lia. }
    exact Hu. }
  destruct (Z.leb_spec (log10_rounds_to (k + 1)) d); [lia | reflexivity].
Qed.

(** From 9999995 to 9999999 the logarithm rounds to 7. *)
Lemma float_log10_rounds_up (d : Z) :
  9999995 <= d <= 9999999 -> float_log10_int (float_of_int d) = 7.
Proof.
  intros [Hlo Hhi].
  rewrite float_of_int_small by (change (2 ^ 24) with 16777216; lia).
  unfold float_log10_int.
  rewrite (log10_int_unique d 6) by
    (change (10 ^ 6) with 1000000; change (10 ^ (6 + 1)) with 10000000; lia).
  change (log10_rounds_to (6 + 1)) with 9999995.
  destruct (Z.leb_spec 9999995 d); [reflexivity | lia].
Qed.

(** The correction at denominators just under a power of ten, where the
    binary32 logarithm rounds up, and at one where it does not. *)
Lemma time_base_correction_near_powers_of_ten :
  fixed_time_base (mkContext (mkRational 1 9999994) 0)
  = mkContext (mkRational 100000 9999994) 0
  /\ fixed_time_base (mkContext (mkRational 1 9999995) 0)
     = mkContext (mkRational 1000000 9999995) 0
  /\ fixed_time_base (mkContext (mkRational 1 9999999) 0)
     = mkContext (mkRational 1000000 9999999) 0
  /\ float_of_int 99999999 = 100000000
  /\ fixed_time_base (mkContext (mkRational 1 99999999) 0)
     = mkContext (mkRational 10000000 99999999) 0
  /\ fixed_time_base (mkContext (mkRational 1 999999999) 0)
     = mkContext (mkRational 100000000 999999999) 0.
Proof. repeat split; vm_compute; reflexivity. Qed.

(** ** Objects without an audio stream *)

Lemma try_push_items (q : Queue.t) (x : aligned_buffer) :
  Queue.items (fst (Queue.try_push q x)) = Queue.items q
  \/ Queue.items (fst (Queue.try_push q x)) = Queue.items q ++ [x].
Proof.
  unfold Queue.try_push. destruct (_ <? _); cbn; [now right | now left].
Qed.

Lemma try_push_Forall (P : aligned_buffer -> Prop) (q : Queue.t) (x : aligned_buffer) :
  Forall P (Queue.items q) -> P x ->
  Forall P (Queue.items (fst (Queue.try_push q x))).
Proof.
  intros Hq Hx. destruct (try_push_items q x) as [E | E]; rewrite E.
  - exact Hq.
  - apply Forall_app. split; [exact Hq | constructor; [exact Hx | constructor]].
Qed.

Lemma try_pop_Forall (P : aligned_buffer -> Prop) (q : Queue.t) :
  Forall P (Queue.items q) ->
  Forall P (Queue.items (fst (Queue.try_pop q)))
  /\ match snd (Queue.try_pop q) with Some x => P x | None => True end.
Proof.
  unfold Queue.try_pop. intros H.
  destruct (Queue.items q) as [|x rest] eqn:E; cbn.
  - rewrite E. split; [constructor | exact I].
  - inversion H; subst. split; assumption.
Qed.

Lemma read_file_video_only (s : implementation) (io : read_input) :
  video_only s -> 0 <= packet_stream_index io ->
  exists ev s' w,
    read_file s io = (ev, Ok (s', w))
    /\ video_only s'
    /\ (never_seeks s -> never_seeks s').
Proof.
  intros ((c & Hc & Hpos) & Hidx & Hq) Hio.
  pose proof (division_defined _ Hpos) as Hd.
  assert (Hne : (packet_stream_index io =? audio_s_index_ s) = false)
    by (apply Z.eqb_neq; lia).
  unfold_members. unfold get_default_context. rewrite Hc, Hd, Hne.
  unfold_monad.
  repeat (break_match; try discriminate).
  all: repeat match goal with
         | E : (_, _) = (_, _) |- _ => inversion E; subst; clear E
         end.
  all: do 3 eexists; (split; [reflexivity|]).
  all: unfold video_only, never_seeks;
    cbn [video_codec_context_ audio_s_index_ audio_packet_buffer_ loop_
         set_running set_eof_count set_video_packet_buffer
         set_audio_packet_buffer].
  all: split;
    [ split; [exists c; split; assumption|];
      split; [assumption|];
      first [ assumption | apply try_push_Forall; [assumption | reflexivity] ]
    | intros [Hl He]; first [ congruence | split; assumption ] ].
Qed.

Lemma step_video_only (s : implementation) (a : action) :
  video_only s -> valid_action a ->
  exists ev s',
    step s a = (ev, Ok s')
    /\ video_only s'
    /\ (never_seeks s -> never_seeks s').
Proof.
  intros Hs Ha. destruct a as [io | | | n]; cbn [step].
  - destruct (running s);
      [|do 2 eexists; split; [reflexivity|]; split; [assumption | tauto]].
    destruct (read_file_video_only s io Hs Ha) as (ev & s' & w & E & Hv & Hn).
    rewrite E. cbn. do 2 eexists. split; [reflexivity|]. split; assumption.
  - cbn. do 2 eexists. split; [reflexivity|].
    destruct Hs as (Hc & Hi & Hq).
    split; [split; [|split]|]; first [assumption | intros Hn; exact Hn].
  - cbn. do 2 eexists. split; [reflexivity|].
    destruct Hs as (Hc & Hi & Hq). split; [split; [|split]|].
    + assumption.
    + assumption.
    + cbn. now apply try_pop_Forall.
    + intros [Hl He]. split; [assumption|]. cbn.
      unfold Queue.try_pop. rewrite He. cbn. exact He.
  - cbn. do 2 eexists. split; [reflexivity|].
    destruct Hs as ((c & Hc & Hd) & Hi & Hq).
    unfold decoder_sets_frame_number. rewrite Hc.
    split; [split; [|split]|]; cbn; try assumption.
    + exists (set_frame_number c n). split; [reflexivity | exact Hd].
    + intros Hn. exact Hn.
Qed.

Lemma run_video_only (acts : list action) : forall s : implementation,
  video_only s -> Forall valid_action acts ->
  exists ev s',
    run s acts = (ev, Ok s')
    /\ video_only s'
    /\ (never_seeks s -> never_seeks s').
Proof.
  induction acts as [|a acts IH]; intros s Hs Ha; cbn [run].
  - do 2 eexists. split; [reflexivity|]. split; [assumption | tauto].
  - inversion Ha as [|? ? Ha1 Ha2]; subst.
    destruct (step_video_only s a Hs Ha1) as (ev1 & s1 & E1 & Hv1 & Hn1).
    destruct (IH s1 Hv1 Ha2) as (ev2 & s2 & E2 & Hv2 & Hn2).
    rewrite E1. cbn [bind]. rewrite E2.
    do 2 eexists. split; [reflexivity|]. split; [assumption | tauto].
Qed.

Lemma get_audio_packet_video_only (s : implementation) :
  video_only s ->
  (option_map snd (value (get_audio_packet s)) = Some None
   \/ option_map snd (value (get_audio_packet s)) = Some (Some flush_marker))
  /\ (never_seeks s -> option_map snd (value (get_audio_packet s)) = Some None).
Proof.
  intros (_ & _ & Hq). cbn. unfold Queue.try_pop.
  destruct (Queue.items (audio_packet_buffer_ s)) as [|x rest] eqn:E; cbn.
  - split; [now left | reflexivity].
  - inversion Hq; subst. split; [now right|].
    intros [_ He]. congruence.
Qed.

Lemma open_stream_none (l : list (option AVStream)) (type s_index : Z) :
  fst (open_stream l type s_index) = None ->
  snd (open_stream l type s_index) = s_index.
Proof.
  unfold open_stream. destruct (find_stream l type) as [st|]; [|reflexivity].
  destruct (negb (decoder_found st)); [reflexivity|].
  destruct (0 <? - avcodec_open_ret st); [reflexivity | discriminate].
Qed.

(* ===================================================================== *)
(** * The claims *)
(* ===================================================================== *)

(** ** Capacity of the queues *)

(** C1, counterexample: the queues are default-constructed, so the 26th
    push on a queue of 25 items returns true and the queue then holds 26;
    26 video packets read by the worker are all buffered. *)
Lemma C1_counterexample :
  ~ holds_at_most_25 (repeat example_packet 26)
  /\ (let q25 := fst (Queue.push_all new_queue (repeat example_packet 25)) in
      Queue.size q25 = PACKET_BUFFER_COUNT
      /\ snd (Queue.try_push q25 example_packet) = true)
  /\ option_map (fun s => Queue.size (video_packet_buffer_ s))
       (value (run example_object (repeat (ActReadFile example_video_read) 26)))
     = Some 26.
Proof.
  split; [|split].
  - unfold holds_at_most_25. vm_compute. intros H. apply H. reflexivity.
  - vm_compute. split; reflexivity.
  - vm_compute. reflexivity.
Qed.

(** C1, amended: a queue never holds more than the capacity it was
    constructed with, whatever is pushed, and [try_push] returns false
    exactly when the queue is at that capacity, leaving the queue as it
    was.  The queues of the input are constructed with the library's
    default capacity, which is above 25: [PACKET_BUFFER_COUNT] is the
    threshold of the backpressure wait, not a capacity. *)
Theorem C1_queue_bounded_by_its_capacity
    (q : Queue.t) (xs : list aligned_buffer)
    (H : Queue.size q <= Queue.capacity q) :
  let q' := fst (Queue.push_all q xs) in
  Queue.size q' <= Queue.capacity q
  /\ Queue.capacity q' = Queue.capacity q
  /\ (forall x, snd (Queue.try_push q' x) = false
                <-> Queue.size q' = Queue.capacity q)
  /\ (forall x, snd (Queue.try_push q' x) = false
                -> fst (Queue.try_push q' x) = q')
  /\ (forall loop sf ef f ev s,
        construct loop sf ef f = (ev, Ok s) ->
        Queue.capacity (video_packet_buffer_ s) = tbb_default_capacity
        /\ Queue.capacity (audio_packet_buffer_ s) = tbb_default_capacity)
  /\ PACKET_BUFFER_COUNT < tbb_default_capacity.
Proof.
  intros q'. destruct (push_all_bound xs q H) as [Hs Hc]. fold q' in Hs, Hc.
  split; [exact Hs|]. split; [exact Hc|].
  split; [|split; [|split]].
  - intros x. rewrite try_push_flag. lia.
  - intros x Hf. apply try_push_flag in Hf.
    now rewrite (try_push_false q' x Hf).
  - intros loop sf ef f ev s E.
    destruct (construct_inv _ _ _ _ _ _ E)
      as (_ & _ & _ & _ & _ & _ & _ & _ & _ & _ & _ & Hq0 & Hq1).
    destruct (Z.eq_dec (Z.max sf 0) 0) as [Ez | Ez].
    + destruct (Hq0 Ez) as [-> ->]. split; reflexivity.
    + destruct (Hq1 Ez) as [-> ->]. split; reflexivity.
  - reflexivity.
Qed.

Lemma C1_queue_bounded_by_its_capacity_witness :
  Queue.size (Queue.mk 2 []) <= Queue.capacity (Queue.mk 2 [])
  /\ Queue.size (fst (Queue.push_all (Queue.mk 2 [])
                        [example_packet; example_packet; example_packet])) <= 2.
Proof.
  split; [vm_compute; discriminate|].
  apply (C1_queue_bounded_by_its_capacity (Queue.mk 2 [])
           [example_packet; example_packet; example_packet]).
  vm_compute; discriminate.
Defined.

(** ** Backpressure *)

(** The worker reads 26 video packets and 26 audio packets and nobody
    pops: the iterations up to the last go on, the last one ends in the
    wait; one [get_video_packet] brings the video queue back to 25 and the
    condition of the wait is false again. *)
Lemma backpressure_scenario :
  exists ev s ev' s' ev'' s'' p,
    run example_object (repeat (ActReadFile example_video_read) 26
                        ++ repeat (ActReadFile example_audio_read) 25)
    = (ev, Ok s)
    /\ cond_wait s = Scheduled
    /\ read_file s example_audio_read = (ev', Ok (s', Waiting))
    /\ Queue.size (video_packet_buffer_ s') = 26
    /\ Queue.size (audio_packet_buffer_ s') = 26
    /\ get_video_packet s' = (ev'', Ok (s'', p))
    /\ ev'' = [EvNotifyAll]
    /\ cond_wait s'' = Scheduled.
Proof.
  do 7 eexists.
  split; [vm_compute; reflexivity|].
  split; [vm_compute; reflexivity|].
  split; [vm_compute; reflexivity|].
  split; [vm_compute; reflexivity|].
  split; [vm_compute; reflexivity|].
  split; [vm_compute; reflexivity|].
  split; vm_compute; reflexivity.
Qed.




(** ** End of stream *)

(** C3, counterexample: with a window configured and the counter not yet
    past [eof_count_], the library's EOF is not taken as an end of stream;
    the iteration ends in the exception handler although the object
    loops. *)
Lemma C3_counterexample :
  library_signals_eof AVERROR_EOF = true
  /\ is_eof example_window_object AVERROR_EOF
     <> ret (end_of_stream_as_claimed example_window_object AVERROR_EOF)
  /\ is_eof example_window_object AVERROR_EOF = ret false
  /\ read_file example_window_object example_eof_read
     = ([EvReadFrame; EvExecutorStop; EvLogInfo "eof"; EvLogCurrentException],
        Ok (set_running example_window_object false, Returned)).
Proof.
  split; [reflexivity|]. split; [discriminate|]. split; reflexivity.
Qed.

(** C3, amended: with a window configured ([end_frame_] other than -1) an
    iteration is an end of stream exactly when the frame counter of the
    default context is above [eof_count_], whatever [av_read_frame]
    returned; without a window, exactly when [av_read_frame] returned
    [AVERROR_EOF] or [AVERROR_IO].  An end of stream on an object that
    does not loop stops the executor. *)
Theorem C3_end_of_stream
    (s : implementation) (c : AVCodecContext) (errn : Z)
    (H : get_default_context s = Some c) :
  (end_frame_ s <> -1 -> is_eof s errn = ret (eof_count_ s <? frame_number c))
  /\ (end_frame_ s = -1 -> is_eof s errn = ret (library_signals_eof errn))
  /\ (forall io, is_eof s (read_frame_ret io) = ret true -> loop_ s = false ->
        read_file s io
        = ([EvReadFrame; EvExecutorStop; EvLogInfo "eof";
            EvUpdateValue "input-buffer"
              (Queue.size (video_packet_buffer_ s)) PACKET_BUFFER_COUNT;
            EvBeginInvoke],
           Ok (set_running s false, Scheduled))).
Proof.
  split; [|split].
  - intros Hw. unfold is_eof. rewrite H.
    destruct (Z.eqb_spec (end_frame_ s) (-1)); [contradiction | reflexivity].
  - intros Hw. unfold is_eof. rewrite Hw. reflexivity.
  - intros io He Hl. unfold read_file, read_file_try. rewrite He, Hl.
    reflexivity.
Qed.

Lemma C3_end_of_stream_witness :
  get_default_context example_window_object
  = Some (mkContext (mkRational 1000 25000) 50)
  /\ is_eof example_window_object AVERROR_EOF = ret false.
Proof.
  split; [reflexivity|].
  apply (proj1 (C3_end_of_stream example_window_object
                  (mkContext (mkRational 1000 25000) 50) AVERROR_EOF eq_refl)).
  discriminate.
Defined.

(** ** Read failures *)

(** C4, counterexample: after a failed read the object holds no fault and
    no call of the facade throws. *)
Lemma C4_counterexample :
  exists ev s',
    read_file example_object example_failed_read = (ev, Ok (s', Returned))
    /\ is_running s' = false
    /\ ~ fault_recorded s'
    /\ ~ facade_reports_fault s'.
Proof.
  eexists. eexists. split; [reflexivity|]. split; [reflexivity|]. split.
  - intros H. apply H. reflexivity.
  - intros [[e H] | [e H]]; discriminate H.
Qed.

(** C4, amended: when [av_read_frame] returns a negative value that
    [is_eof] does not take as an end of stream, the iteration stops the
    executor, logs the exception and returns without scheduling another
    iteration and without waiting.  The object is otherwise unchanged:
    [exception_] is not assigned and the queues keep their packets; the
    facade shows the fault only as [is_running() = false], and its calls
    never throw. *)
Theorem C4_read_failure_stops_worker
    (s : implementation) (io : read_input)
    (Hneg : read_frame_ret io < 0)
    (Hne : is_eof s (read_frame_ret io) = ret false) :
  read_file s io
  = ([EvReadFrame; EvExecutorStop; EvLogInfo "eof"; EvLogCurrentException],
     Ok (set_running s false, Returned))
  /\ is_running (set_running s false) = false
  /\ exception_ (set_running s false) = exception_ s
  /\ video_packet_buffer_ (set_running s false) = video_packet_buffer_ s
  /\ audio_packet_buffer_ (set_running s false) = audio_packet_buffer_ s
  /\ (forall s0, ~ facade_reports_fault s0).
Proof.
  split; [|repeat split].
  - unfold read_file, read_file_try. rewrite Hne.
    apply Z.ltb_lt in Hneg. cbn. rewrite Hneg. reflexivity.
  - intros s0 [[e H] | [e H]]; discriminate H.
Qed.

Lemma C4_read_failure_stops_worker_witness :
  read_frame_ret example_failed_read < 0
  /\ is_eof example_object (read_frame_ret example_failed_read) = ret false
  /\ read_file example_object example_failed_read
     = ([EvReadFrame; EvExecutorStop; EvLogInfo "eof"; EvLogCurrentException],
        Ok (set_running example_object false, Returned)).
Proof.
  split; [reflexivity|]. split; [reflexivity|].
  exact (proj1 (C4_read_failure_stops_worker example_object example_failed_read
                  eq_refl eq_refl)).
Defined.

(** ** Flush markers *)




(** ** Objects without an audio stream *)

(** C6, counterexample: a file with a video stream only, opened with
    [start_frame = 5].  The initial seek pushes a flush marker on the audio
    queue as well, and [get_audio_packet] returns it. *)
Lemma C6_counterexample :
  exists ev s,
    construct false 5 (-1) example_video_file = (ev, Ok s)
    /\ audio_codex_context_ s = None
    /\ option_map snd (value (get_audio_packet s)) = Some (Some flush_marker)
    /\ ~ audio_packet_absent s.
Proof.
  do 2 eexists. split; [reflexivity|]. split; [reflexivity|].
  split; [reflexivity|]. intros H. discriminate H.
Qed.

(** C6, amended: when a video stream is opened and no audio stream is,
    construction succeeds (the window being valid, the file and its
    stream information readable, the initial seek, if any, successful),
    and whatever the worker, the consumers and the decoder do afterwards,
    [get_audio_packet] returns null or a zero-length flush marker, never a
    packet read from the file; it returns null at every point when the
    object was constructed with [start_frame <= 0] and does not loop. *)
Theorem C6_video_only_audio_packets
    (loop : bool) (sf ef : Z) (f : av_file) (vc : AVCodecContext) (vidx : Z)
    (Hwin : (0 <? ef) && (ef <=? Z.max sf 0) = false)
    (Ho : 0 <= av_open_input_file_ret f)
    (Hn : format_context_null f = false)
    (Hf : 0 <= av_find_stream_info_ret f)
    (Hv : open_stream (streams f) CODEC_TYPE_VIDEO (-1) = (Some vc, vidx))
    (Ha : fst (open_stream (streams f) CODEC_TYPE_AUDIO (-1)) = None)
    (Hd : 0 < den (time_base vc))
    (Hs : 0 <= av_seek_frame_ret f) :
  exists ev s,
    construct loop sf ef f = (ev, Ok s)
    /\ forall acts, Forall valid_action acts ->
         exists ev' s',
           run s acts = (ev', Ok s')
           /\ (option_map snd (value (get_audio_packet s')) = Some None
               \/ option_map snd (value (get_audio_packet s'))
                  = Some (Some flush_marker))
           /\ (sf <= 0 -> loop = false -> audio_packet_absent s').
Proof.
  destruct (construct_succeeds loop sf ef f vc vidx Hwin Ho Hn Hf Hv Hd Hs)
    as (ev & s & E).
  exists ev, s. split; [exact E|].
  destruct (construct_inv _ _ _ _ _ _ E)
    as (_ & Hl & _ & _ & _ & _ & _ & Hvc & _ & _ & Hai & Hq0 & Hq1).
  rewrite Hv in Hvc. cbn [fst option_map] in Hvc.
  rewrite (open_stream_none _ _ _ Ha) in Hai.
  assert (Hvo : video_only s).
  { split; [|split].
    - exists (fixed_time_base vc). split; [exact Hvc|].
      rewrite fixed_time_base_den. lia.
    - exact Hai.
    - destruct (Z.eq_dec (Z.max sf 0) 0) as [Ez | Ez].
      + destruct (Hq0 Ez) as [_ ->]. constructor.
      + destruct (Hq1 Ez) as [_ ->]. repeat constructor. }
  intros acts Hacts.
  destruct (run_video_only acts s Hvo Hacts) as (ev' & s' & E' & Hvo' & Hns).
  exists ev', s'. split; [exact E'|].
  destruct (get_audio_packet_video_only s' Hvo') as [Hor Habs].
  split; [exact Hor|].
  intros Hsf Hloop. apply Habs, Hns. split.
  - congruence.
  - assert (Ez : Z.max sf 0 = 0) by lia. destruct (Hq0 Ez) as [_ ->]. reflexivity.
Qed.

Lemma C6_video_only_audio_packets_witness :
  exists ev s,
    construct false 0 (-1) example_video_file = (ev, Ok s)
    /\ forall acts, Forall valid_action acts ->
         exists ev' s',
           run s acts = (ev', Ok s')
           /\ (option_map snd (value (get_audio_packet s')) = Some None
               \/ option_map snd (value (get_audio_packet s'))
                  = Some (Some flush_marker))
           /\ (0 <= 0 -> false = false -> audio_packet_absent s').
Proof.
  apply (C6_video_only_audio_packets false 0 (-1) example_video_file
           (mkContext (mkRational 1 25000) 0) 0).
  - reflexivity.
  - vm_compute; discriminate.
  - reflexivity.
  - vm_compute; discriminate.
  - reflexivity.
  - reflexivity.
  - vm_compute; reflexivity.
  - vm_compute; discriminate.
Defined.

(** ** The time-base correction *)

(** C7, counterexample: a video stream 1/25000 and an audio stream
    1/48000.  After construction the video numerator is 1000, where the
    claim has [10^(digits 25000 - 1) = 10000], and the audio numerator is
    still 1. *)
Lemma C7_counterexample :
  exists ev s c a,
    construct false 0 (-1) example_av_file = (ev, Ok s)
    /\ video_codec_context_ s = Some c
    /\ time_base c = mkRational 1000 25000
    /\ numerator_as_claimed 25000 = 10000
    /\ num (time_base c) <> numerator_as_claimed (den (time_base c))
    /\ audio_codex_context_ s = Some a
    /\ time_base a = mkRational 1 48000.
Proof.
  do 4 eexists. split; [reflexivity|]. split; [reflexivity|].
  split; [reflexivity|]. split; [reflexivity|].
  split; [vm_compute; discriminate|]. split; reflexivity.
Qed.

(** C7, amended: the correction of a context with numerator 1 and
    denominator [den >= 1] sets the numerator to [10^(digits(den) - 2)],
    the power of ten two digits shorter than the denominator, for every
    denominator below 9999995, and to 0 when the denominator has one
    digit.  The logarithm is taken in binary32: from 9999995 on, a
    denominator just under a power of ten has a logarithm that rounds to
    the next integer, and the numerator is ten times larger ([10^6] for
    9999995 to 9999999).  The denominator and every context whose
    numerator is not 1 are left as they are; a null context is skipped.
    Construction applies the correction to the video context when a video
    stream was opened. *)
Theorem C7_video_time_base_corrected
    (c : AVCodecContext) (H : 1 <= den (time_base c)) :
  fix_time_base (Some c) = ret (Some (fixed_time_base c))
  /\ den (time_base (fixed_time_base c)) = den (time_base c)
  /\ frame_number (fixed_time_base c) = frame_number c
  /\ (num (time_base c) <> 1 -> fixed_time_base c = c)
  /\ (num (time_base c) = 1 ->
      10 <= den (time_base c) -> den (time_base c) < 9999995 ->
      num (time_base (fixed_time_base c)) = 10 ^ (digits (den (time_base c)) - 2))
  /\ (num (time_base c) = 1 -> den (time_base c) < 10 ->
      num (time_base (fixed_time_base c)) = 0)
  /\ (num (time_base c) = 1 ->
      9999995 <= den (time_base c) -> den (time_base c) <= 9999999 ->
      num (time_base (fixed_time_base c)) = 10 ^ 6)
  /\ fix_time_base None = ret None
  /\ (forall loop sf ef f ev s,
        construct loop sf ef f = (ev, Ok s) ->
        video_codec_context_ s
        = option_map fixed_time_base
            (fst (open_stream (streams f) CODEC_TYPE_VIDEO (-1)))).
Proof.
  split; [apply fix_time_base_defined; lia|].
  split; [apply fixed_time_base_den|].
  unfold fixed_time_base.
  destruct (Z.eqb_spec (num (time_base c)) 1) as [E | E];
    cbn [time_base num den frame_number].
  - split; [reflexivity|]. split; [intros; contradiction|].
    split; [|split; [|split; [|split]]].
    + intros _ Hd Hu. rewrite float_log10_exact by lia.
      rewrite digits_log10.
      replace (digits (den (time_base c)) - 1 - 1)
        with (digits (den (time_base c)) - 2) by lia.
      pose proof (digits_large _ Hd). unfold pow10_int.
      destruct (Z.ltb_spec (digits (den (time_base c)) - 2) 0); [lia | reflexivity].
    + intros _ Hd. rewrite float_log10_exact by lia.
      rewrite digits_log10, (digits_small _ Hd). reflexivity.
    + intros _ Hlo Hhi. rewrite float_log10_rounds_up by lia. reflexivity.
    + reflexivity.
    + intros loop sf ef f ev s Hc. now apply construct_inv in Hc.
  - split; [reflexivity|]. split; [reflexivity|].
    split; [intros; contradiction|]. split; [intros; contradiction|].
    split; [intros; contradiction|]. split; [reflexivity|].
    intros loop sf ef f ev s Hc. now apply construct_inv in Hc.
Qed.

Lemma C7_video_time_base_corrected_witness :
  1 <= den (time_base (mkContext (mkRational 1 25000) 0))
  /\ fix_time_base (Some (mkContext (mkRational 1 25000) 0))
     = ret (Some (mkContext (mkRational 1000 25000) 0)).
Proof.
  split; [cbn; lia|].
  apply (C7_video_time_base_corrected (mkContext (mkRational 1 25000) 0)).
  cbn; lia.
Defined.

(** ** The seek timestamp *)

(** C8, counterexample: frame 3 of a stream with the time base
    1001/30000.  The quotient 1001000000/30000 is truncated to 33366
    before the multiplication, so the timestamp is 100098 and not 100100;
    and the flags reach [av_seek_frame] with [AVSEEK_FLAG_FRAME] added. *)
Lemma C8_counterexample :
  events (seek_frame example_ntsc_object 3 0 0) = [EvSeekFrame 100098 8]
  /\ timestamp_as_claimed (mkRational 1001 30000) 3 = 100100
  /\ events (seek_frame example_ntsc_object 3 0 0)
     <> [EvSeekFrame (timestamp_as_claimed (mkRational 1001 30000) 3) 0].
Proof.
  split; [reflexivity|]. split; [reflexivity|]. discriminate.
Qed.

(** C8, amended: the timestamp is [frame * ((AV_TIME_BASE * num) / den)]:
    the product [AV_TIME_BASE * num] and the truncating division are
    [int] operations done first, the multiplication by the frame number
    comes last, in 64 bits; the seek is issued on stream -1 with the
    caller's flags or-ed with [AVSEEK_FLAG_FRAME]. *)
Theorem C8_seek_timestamp
    (s : implementation) (c : AVCodecContext) (frame flags errn : Z)
    (Hc : get_default_context s = Some c)
    (Hd : 0 < den (time_base c))
    (Hn : in_int32 (AV_TIME_BASE * num (time_base c)))
    (Hf : in_int64 (frame * Z.quot (AV_TIME_BASE * num (time_base c))
                                   (den (time_base c)))) :
  events (seek_frame s frame flags errn)
  = [EvSeekFrame (frame * Z.quot (AV_TIME_BASE * num (time_base c))
                                 (den (time_base c)))
                 (Z.lor flags AVSEEK_FLAG_FRAME)].
Proof.
  assert (Hts : seek_timestamp (time_base c) frame
                = frame * Z.quot (AV_TIME_BASE * num (time_base c))
                                 (den (time_base c))).
  { unfold seek_timestamp. rewrite (int32_in_range _ Hn).
    rewrite int32_in_range, int64_in_range; [reflexivity | exact Hf |].
    unfold in_int32 in *.
    set (a := AV_TIME_BASE * num (time_base c)) in *.
    set (d := den (time_base c)) in *.
    destruct (Z.le_gt_cases 0 a) as [Ha | Ha].
    - pose proof (Z.quot_pos a d Ha Hd).
      assert (Z.quot a d <= a)
        by (rewrite Z.quot_div_nonneg by lia; apply Z.div_le_upper_bound; nia).
      lia.
    - assert (E : Z.quot a d = - Z.quot (- a) d) by (rewrite Z.quot_opp_l by lia; lia).
      assert (0 <= Z.quot (- a) d) by (apply Z.quot_pos; lia).
      assert (Z.quot (- a) d <= - a)
        by (rewrite Z.quot_div_nonneg by lia; apply Z.div_le_upper_bound; nia).
      lia. }
  destruct (Z.ltb_spec errn 0) as [He | He].
  - rewrite (seek_frame_fails s c frame flags errn Hc) by lia.
    cbn. now rewrite Hts.
  - rewrite (seek_frame_ok s c frame flags errn Hc) by lia.
    cbn. now rewrite Hts.
Qed.

Lemma C8_seek_timestamp_witness :
  events (seek_frame example_ntsc_object 3 AVSEEK_FLAG_BACKWARD 0)
  = [EvSeekFrame (3 * Z.quot (AV_TIME_BASE * 1001) 30000)
                 (Z.lor AVSEEK_FLAG_BACKWARD AVSEEK_FLAG_FRAME)].
Proof.
  apply (C8_seek_timestamp example_ntsc_object
           (mkContext (mkRational 1001 30000) 0) 3 AVSEEK_FLAG_BACKWARD 0).
  - reflexivity.
  - reflexivity.
  - vm_compute. split; [discriminate | reflexivity].
  - vm_compute. split; [discriminate | reflexivity].
Defined.

(** ** The playback window *)

(** C9: a request with [end_frame > 0] and [end_frame <= start_frame]
    fails with [invalid_argument] before anything else is done: no file is
    opened and no worker is started.  The check does not look at [loop],
    so this holds for [loop = true] in particular. *)
Theorem C9_invalid_window_rejected
    (loop : bool) (start_frame end_frame : Z) (f : av_file)
    (Hpos : 0 < end_frame) (Hle : end_frame <= start_frame) :
  construct loop start_frame end_frame f = ([], Throw invalid_argument)
  /\ value (construct loop start_frame end_frame f) = None
  /\ ~ In EvOpenInputFile (events (construct loop start_frame end_frame f))
  /\ ~ In EvExecutorStart (events (construct loop start_frame end_frame f))
  /\ ~ In EvBeginInvoke (events (construct loop start_frame end_frame f)).
Proof.
  assert (E : construct loop start_frame end_frame f = ([], Throw invalid_argument)).
  { unfold construct.
    assert (E1 : (0 <? end_frame) = true) by (apply Z.ltb_lt; lia).
    assert (E2 : (end_frame <=? Z.max start_frame 0) = true)
      by (apply Z.leb_le; lia).
    rewrite E1, E2. reflexivity. }
  rewrite E. cbn. tauto.
Qed.

Lemma C9_invalid_window_rejected_witness :
  construct true 10 5 example_av_file = ([], Throw invalid_argument).
Proof.
  apply (C9_invalid_window_rejected true 10 5 example_av_file); lia.
Defined.

(** ** Negative start frames *)

(** C10, at a failing input: constructed with [start_frame = -5] and
    [end_frame = 10] the object stores start frame 0 and does not seek,
    like the object constructed with [start_frame = 0], but its
    [eof_count_] is 15 and not 10: once the decoder has counted 12 frames
    the second object is at its end of stream and the first is not. *)
Theorem C10_negative_start_frame :
  exists ev s ev0 s0,
    construct false (-5) 10 example_av_file = (ev, Ok s)
    /\ construct false 0 10 example_av_file = (ev0, Ok s0)
    /\ start_frame_ s = 0 /\ start_frame_ s0 = 0
    /\ ev = ev0 /\ (forall ts fl, ~ In (EvSeekFrame ts fl) ev)
    /\ eof_count_ s = 15 /\ eof_count_ s0 = 10
    /\ is_eof (decoder_sets_frame_number s 12) 0 = ret false
    /\ is_eof (decoder_sets_frame_number s0 12) 0 = ret true.
Proof.
  do 4 eexists.
  split; [reflexivity|]. split; [reflexivity|].
  repeat split.
  intros ts fl H. cbn in H.
  repeat (destruct H as [H | H]; [discriminate H|]). exact H.
Qed.

(* ===================================================================== *)
(** * Further properties of the input *)
(* ===================================================================== *)

(** ** What an iteration leaves alone *)

Lemma read_file_frame (s : implementation) (io : read_input) ev s' w :
  read_file s io = (ev, Ok (s', w)) ->
  video_codec_context_ s' = video_codec_context_ s
  /\ audio_codex_context_ s' = audio_codex_context_ s
  /\ loop_ s' = loop_ s
  /\ video_s_index_ s' = video_s_index_ s
  /\ audio_s_index_ s' = audio_s_index_ s
  /\ start_frame_ s' = start_frame_ s
  /\ end_frame_ s' = end_frame_ s
  /\ exception_ s' = exception_ s
  /\ Queue.capacity (video_packet_buffer_ s') = Queue.capacity (video_packet_buffer_ s)
  /\ Queue.capacity (audio_packet_buffer_ s') = Queue.capacity (audio_packet_buffer_ s).
Proof.
  unfold_members. unfold_monad. intros H.
  repeat (break_match; try discriminate).
  all: repeat match goal with
         | E : (_, _) = (_, _) |- _ => inversion E; subst; clear E
         end.
  all: cbn [video_codec_context_ audio_codex_context_ loop_ video_s_index_
            audio_s_index_ start_frame_ end_frame_ exception_
            video_packet_buffer_ audio_packet_buffer_
            set_running set_eof_count set_video_packet_buffer
            set_audio_packet_buffer].
  all: rewrite ?try_push_capacity; repeat split; congruence.
Qed.

(** One iteration that reads a packet, on an object without a window. *)
Lemma read_file_packet (s : implementation) (io : read_input) :
  end_frame_ s = -1 -> 0 <= read_frame_ret io ->
  exists ev s' w,
    read_file s io = (ev, Ok (s', w))
    /\ running s' = running s
    /\ eof_count_ s' = eof_count_ s
    /\ video_packet_buffer_ s'
       = (if to_video s io
          then fst (Queue.try_push (video_packet_buffer_ s) (packet_data io))
          else video_packet_buffer_ s)
    /\ audio_packet_buffer_ s'
       = (if to_audio s io
          then fst (Queue.try_push (audio_packet_buffer_ s) (packet_data io))
          else audio_packet_buffer_ s).
Proof.
  intros Hw Hr. unfold read_file, read_file_try, is_eof, to_video, to_audio.
  rewrite Hw. cbn [Z.eqb negb Pos.eqb].
  assert (E1 : (read_frame_ret io =? AVERROR_EOF) = false)
    by (apply Z.eqb_neq; unfold AVERROR_EOF; lia).
  assert (E2 : (read_frame_ret io =? AVERROR_IO) = false)
    by (apply Z.eqb_neq; unfold AVERROR_IO; lia).
  assert (E3 : (read_frame_ret io <? 0) = false) by (apply Z.ltb_ge; lia).
  rewrite E1, E2. cbn [orb bind ret emit]. rewrite E3.
  destruct (packet_stream_index io =? video_s_index_ s);
    [|destruct (packet_stream_index io =? audio_s_index_ s)];
    cbn; do 3 eexists; (split; [reflexivity|]); repeat split.
Qed.

(** ** Routing and order of the packets *)

Lemma try_push_room (q : Queue.t) (x : aligned_buffer) :
  Queue.size q < Queue.capacity q ->
  Queue.items (fst (Queue.try_push q x)) = Queue.items q ++ [x]
  /\ Queue.size (fst (Queue.try_push q x)) = Queue.size q + 1
  /\ Queue.capacity (fst (Queue.try_push q x)) = Queue.capacity q.
Proof.
  intros H. rewrite (try_push_true q x H). cbn [fst Queue.items Queue.capacity].
  split; [reflexivity|]. split; [|reflexivity].
  unfold Queue.size. cbn [Queue.items]. rewrite length_app. cbn [length]. lia.
Qed.

(** X1: on a running object without a window, a run of successful reads
    that fits in the queues appends to the video queue the packets of the
    video stream and to the audio queue the packets of the audio stream,
    each in the order read; packets of other streams are dropped and the
    worker keeps running. *)
Theorem X1_reads_are_routed_in_order
    (s : implementation) (ios : list read_input)
    (Hrun : running s = true)
    (Hwin : end_frame_ s = -1)
    (Hok : Forall (fun io => 0 <= read_frame_ret io) ios)
    (Hv : Queue.size (video_packet_buffer_ s) + Z.of_nat (length ios)
          <= Queue.capacity (video_packet_buffer_ s))
    (Ha : Queue.size (audio_packet_buffer_ s) + Z.of_nat (length ios)
          <= Queue.capacity (audio_packet_buffer_ s)) :
  exists ev s',
    run s (map ActReadFile ios) = (ev, Ok s')
    /\ Queue.items (video_packet_buffer_ s')
       = Queue.items (video_packet_buffer_ s)
         ++ map packet_data (filter (to_video s) ios)
    /\ Queue.items (audio_packet_buffer_ s')
       = Queue.items (audio_packet_buffer_ s)
         ++ map packet_data (filter (to_audio s) ios)
    /\ is_running s' = true.
Proof.
  revert s Hrun Hwin Hv Ha.
  induction ios as [|io ios IH]; intros s Hrun Hwin Hv Ha.
  - cbn. do 2 eexists. split; [reflexivity|].
    rewrite !app_nil_r. repeat split. exact Hrun.
  - inversion Hok as [|? ? Hio Hok']; subst.
    change (length (io :: ios)) with (S (length ios)) in Hv, Ha.
    rewrite Nat2Z.inj_succ in Hv, Ha.
    destruct (read_file_packet s io Hwin Hio)
      as (ev1 & s1 & w & E1 & Hr1 & _ & Hv1 & Ha1).
    destruct (read_file_frame s io ev1 s1 w E1)
      as (_ & _ & _ & Hvi & Hai & _ & Hef & _ & Hcv & Hca).
    assert (Hrv : Queue.size (video_packet_buffer_ s)
                  < Queue.capacity (video_packet_buffer_ s)) by lia.
    assert (Hra : Queue.size (audio_packet_buffer_ s)
                  < Queue.capacity (audio_packet_buffer_ s)) by lia.
    assert (Hsv : Queue.size (video_packet_buffer_ s1)
                  <= Queue.size (video_packet_buffer_ s) + 1).
    { rewrite Hv1. destruct (to_video s io); [|lia].
      rewrite (proj1 (proj2 (try_push_room _ (packet_data io) Hrv))). lia. }
    assert (Hsa : Queue.size (audio_packet_buffer_ s1)
                  <= Queue.size (audio_packet_buffer_ s) + 1).
    { rewrite Ha1. destruct (to_audio s io); [|lia].
      rewrite (proj1 (proj2 (try_push_room _ (packet_data io) Hra))). lia. }
    destruct (IH Hok' s1) as (ev2 & s2 & E2 & Hv2 & Ha2 & Hr2);
      [congruence | congruence | lia | lia |].
    cbn [map run step]. rewrite Hrun, E1. cbn [bind ret fst].
    rewrite E2. do 2 eexists. split; [reflexivity|].
    assert (Fv : filter (to_video s1) ios = filter (to_video s) ios).
    { apply filter_ext. intros a. unfold to_video. now rewrite Hvi. }
    assert (Fa : filter (to_audio s1) ios = filter (to_audio s) ios).
    { apply filter_ext. intros a. unfold to_audio. now rewrite Hvi, Hai. }
    rewrite Hv2, Ha2, Fv, Fa, Hv1, Ha1. cbn [filter].
    split; [|split; [|exact Hr2]].
    + destruct (to_video s io); [|reflexivity].
      rewrite (proj1 (try_push_room _ (packet_data io) Hrv)).
      cbn [map]. now rewrite <- app_assoc.
    + destruct (to_audio s io); [|reflexivity].
      rewrite (proj1 (try_push_room _ (packet_data io) Hra)).
      cbn [map]. now rewrite <- app_assoc.
Qed.

Lemma X1_reads_are_routed_in_order_witness :
  exists ev s',
    run example_object
        (map ActReadFile [example_video_read; example_audio_read;
                          mkRead 0 example_packet 7 0; example_video_read])
    = (ev, Ok s')
    /\ Queue.items (video_packet_buffer_ s') = [example_packet; example_packet]
    /\ Queue.items (audio_packet_buffer_ s') = [example_packet]
    /\ is_running s' = true.
Proof.
  apply (X1_reads_are_routed_in_order example_object
           [example_video_read; example_audio_read;
            mkRead 0 example_packet 7 0; example_video_read]).
  - reflexivity.
  - reflexivity.
  - repeat constructor; vm_compute; discriminate.
  - vm_compute; discriminate.
  - vm_compute; discriminate.
Defined.

Lemma get_video_packets_empty (k : nat) : forall s : implementation,
  Queue.items (video_packet_buffer_ s) = [] ->
  get_video_packets k s = (repeat EvNotifyAll k, Ok (s, repeat None k)).
Proof.
  induction k as [|k IH]; intros s He; [reflexivity|].
  cbn [get_video_packets]. unfold get_video_packet, get_packet, Queue.try_pop.
  rewrite He. cbn [bind ret emit fst snd app].
  replace (set_video_packet_buffer s (video_packet_buffer_ s)) with s
    by (destruct s; reflexivity).
  rewrite (IH s He). cbn [bind ret fst snd]. rewrite app_nil_r. reflexivity.
Qed.

Lemma get_audio_packets_empty (k : nat) : forall s : implementation,
  Queue.items (audio_packet_buffer_ s) = [] ->
  get_audio_packets k s = (repeat EvNotifyAll k, Ok (s, repeat None k)).
Proof.
  induction k as [|k IH]; intros s He; [reflexivity|].
  cbn [get_audio_packets]. unfold get_audio_packet, get_packet, Queue.try_pop.
  rewrite He. cbn [bind ret emit fst snd app].
  replace (set_audio_packet_buffer s (audio_packet_buffer_ s)) with s
    by (destruct s; reflexivity).
  rewrite (IH s He). cbn [bind ret fst snd]. rewrite app_nil_r. reflexivity.
Qed.

Lemma get_video_packets_items (xs : list aligned_buffer) (k : nat) :
  forall s : implementation,
  Queue.items (video_packet_buffer_ s) = xs ->
  get_video_packets (length xs + k) s
  = (repeat EvNotifyAll (length xs + k),
     Ok (set_video_packet_buffer s
           (Queue.mk (Queue.capacity (video_packet_buffer_ s)) []),
         map Some xs ++ repeat None k)).
Proof.
  induction xs as [|x xs IH]; intros s He.
  - cbn [length plus map app]. rewrite (get_video_packets_empty k s He).
    replace (set_video_packet_buffer s _) with s; [reflexivity|].
    destruct s as [? ? ? ? ? ? ? ? [cv iv] ? ? ?]. cbn in He. subst iv. reflexivity.
  - cbn [length plus get_video_packets].
    unfold get_video_packet, get_packet, Queue.try_pop.
    rewrite He. cbn [bind ret emit fst snd app].
    erewrite IH by reflexivity. cbn [bind ret fst snd]. rewrite app_nil_r.
    reflexivity.
Qed.

Lemma get_audio_packets_items (xs : list aligned_buffer) (k : nat) :
  forall s : implementation,
  Queue.items (audio_packet_buffer_ s) = xs ->
  get_audio_packets (length xs + k) s
  = (repeat EvNotifyAll (length xs + k),
     Ok (set_audio_packet_buffer s
           (Queue.mk (Queue.capacity (audio_packet_buffer_ s)) []),
         map Some xs ++ repeat None k)).
Proof.
  induction xs as [|x xs IH]; intros s He.
  - cbn [length plus map app]. rewrite (get_audio_packets_empty k s He).
    replace (set_audio_packet_buffer s _) with s; [reflexivity|].
    destruct s as [? ? ? ? ? ? ? ? ? [ca ia] ? ?]. cbn in He. subst ia. reflexivity.
  - cbn [length plus get_audio_packets].
    unfold get_audio_packet, get_packet, Queue.try_pop.
    rewrite He. cbn [bind ret emit fst snd app].
    erewrite IH by reflexivity. cbn [bind ret fst snd]. rewrite app_nil_r.
    reflexivity.
Qed.

(** X2: repeated calls of [get_video_packet] hand out the buffered video
    packets from the oldest to the newest, then null for every further
    call; each call notifies [cond_] once; the audio queue and the rest of
    the object are untouched.  The same holds for [get_audio_packet] and
    the audio queue. *)
Theorem X2_packets_leave_in_order (s : implementation) (k : nat) :
  get_video_packets (length (Queue.items (video_packet_buffer_ s)) + k) s
  = (repeat EvNotifyAll (length (Queue.items (video_packet_buffer_ s)) + k),
     Ok (set_video_packet_buffer s
           (Queue.mk (Queue.capacity (video_packet_buffer_ s)) []),
         map Some (Queue.items (video_packet_buffer_ s)) ++ repeat None k))
  /\ get_audio_packets (length (Queue.items (audio_packet_buffer_ s)) + k) s
     = (repeat EvNotifyAll (length (Queue.items (audio_packet_buffer_ s)) + k),
        Ok (set_audio_packet_buffer s
              (Queue.mk (Queue.capacity (audio_packet_buffer_ s)) []),
            map Some (Queue.items (audio_packet_buffer_ s)) ++ repeat None k)).
Proof.
  split.
  - apply get_video_packets_items. reflexivity.
  - apply get_audio_packets_items. reflexivity.
Qed.

(** ** The end-of-window threshold *)

Lemma int32_add_l (a b : Z) : int32 (int32 a + b) = int32 (a + b).
Proof.
  unfold int32, wrap. f_equal.
  replace ((a + 2 ^ (32 - 1)) mod 2 ^ 32 - 2 ^ (32 - 1) + b + 2 ^ (32 - 1))
    with ((a + 2 ^ (32 - 1)) mod 2 ^ 32 + b) by ring.
  rewrite Z.add_mod_idemp_l by (vm_compute; discriminate). f_equal. ring.
Qed.

Lemma int32_add_r (a b : Z) : int32 (a + int32 b) = int32 (a + b).
Proof. rewrite (Z.add_comm a), int32_add_l. f_equal. ring. Qed.

Lemma int32_range (z : Z) : in_int32 (int32 z).
Proof.
  unfold in_int32, int32, wrap.
  pose proof (Z.mod_pos_bound (z + 2 ^ (32 - 1)) (2 ^ 32) eq_refl).
  change (2 ^ 32) with 4294967296 in *.
  change (2 ^ (32 - 1)) with 2147483648 in *.
  change (2 ^ 31) with 2147483648. lia.
Qed.

Lemma seek_tags_app (ev1 ev2 : list event) :
  seek_tags (ev1 ++ ev2) = seek_tags ev1 + seek_tags ev2.
Proof.
  unfold seek_tags. rewrite filter_app, length_app. lia.
Qed.

(** An iteration either restarts the loop, with one ["seek"] tag and the
    threshold advanced, or adds no tag and leaves the threshold alone. *)
Lemma read_file_eof_count (s : implementation) (io : read_input) ev s' w :
  read_file s io = (ev, Ok (s', w)) ->
  (seek_tags ev = 0 /\ eof_count_ s' = eof_count_ s)
  \/ (seek_tags ev = 1
      /\ eof_count_ s'
         = int32 (eof_count_ s + int32 (end_frame_ s - start_frame_ s))).
Proof.
  unfold_members. unfold_monad. intros H.
  repeat (break_match; try discriminate).
  all: repeat match goal with
         | E : (_, _) = (_, _) |- _ => inversion E; subst; clear E
         end.
  all: first [ left; split; reflexivity | right; split; reflexivity ].
Qed.

Lemma step_eof_count (s : implementation) (a : action) ev s' :
  step s a = (ev, Ok s') ->
  start_frame_ s' = start_frame_ s
  /\ end_frame_ s' = end_frame_ s
  /\ ((seek_tags ev = 0 /\ eof_count_ s' = eof_count_ s)
      \/ (seek_tags ev = 1
          /\ eof_count_ s'
             = int32 (eof_count_ s + int32 (end_frame_ s - start_frame_ s)))).
Proof.
  destruct a as [io | | | n]; cbn [step].
  - destruct (running s).
    + intros H. apply bind_ok in H. destruct H as (ev1 & [s1 w] & ev2 & E1 & E2 & ->).
      cbn in E2. inversion E2; subst; clear E2. rewrite app_nil_r.
      destruct (read_file_frame s io ev1 s' w E1)
        as (_ & _ & _ & _ & _ & Hs & He & _).
      split; [exact Hs|]. split; [exact He|].
      exact (read_file_eof_count s io ev1 s' w E1).
    + intros H. inversion H; subst. repeat split. now left.
  - intros H. cbn in H. inversion H; subst. repeat split. now left.
  - intros H. cbn in H. inversion H; subst. repeat split. now left.
  - intros H. cbn in H. inversion H; subst.
    unfold decoder_sets_frame_number.
    destruct (video_codec_context_ s); cbn; repeat split; now left.
Qed.

(** X3: along any run of the object the window bounds never change, and
    [eof_count_] is the value it had at the start advanced by the window
    length [end_frame_ - start_frame_] once for every ["seek"] tag the run
    added to the diagnostics, in [int] arithmetic: the threshold is raised
    at each loop restart and at no other moment, and it is never reset. *)
Theorem X3_eof_count_advances_per_restart
    (s : implementation) (acts : list action) (ev : list event)
    (s' : implementation)
    (Hin : in_int32 (eof_count_ s))
    (Hrun : run s acts = (ev, Ok s')) :
  start_frame_ s' = start_frame_ s
  /\ end_frame_ s' = end_frame_ s
  /\ eof_count_ s'
     = int32 (eof_count_ s + seek_tags ev * (end_frame_ s - start_frame_ s)).
Proof.
  revert s ev Hin Hrun.
  induction acts as [|a acts IH]; intros s ev Hin Hrun.
  - cbn in Hrun. inversion Hrun; subst. split; [reflexivity|]. split; [reflexivity|].
    cbn. rewrite Z.add_0_r. symmetry. now apply int32_in_range.
  - cbn [run] in Hrun. apply bind_ok in Hrun.
    destruct Hrun as (ev1 & s1 & ev2 & E1 & E2 & ->).
    destruct (step_eof_count s a ev1 s1 E1) as (Hs1 & He1 & Hc1).
    assert (Hin1 : in_int32 (eof_count_ s1)).
    { destruct Hc1 as [[_ ->] | [_ ->]]; [exact Hin | apply int32_range]. }
    destruct (IH s1 ev2 Hin1 E2) as (Hs2 & He2 & Hc2).
    split; [congruence|]. split; [congruence|].
    rewrite Hc2, Hs1, He1, seek_tags_app.
    destruct Hc1 as [[-> ->] | [-> ->]].
    + f_equal; ring.
    + rewrite int32_add_r, int32_add_l. f_equal; ring.
Qed.

Lemma X3_eof_count_advances_per_restart_witness :
  exists ev s',
    run example_window_object
        [ActDecoder 101; ActReadFile example_eof_read;
         ActDecoder 201; ActReadFile example_eof_read]
    = (ev, Ok s')
    /\ seek_tags ev = 2
    /\ eof_count_ s' = int32 (100 + seek_tags ev * (100 - 0)).
Proof.
  assert (Hin : in_int32 (eof_count_ example_window_object))
    by (vm_compute; split; [discriminate | reflexivity]).
  do 2 eexists. split; [vm_compute; reflexivity|]. split; [reflexivity|].
  match goal with
  | |- eof_count_ ?s' = int32 (_ + seek_tags ?ev * _) =>
      exact (proj2 (proj2 (X3_eof_count_advances_per_restart
                             example_window_object
                             [ActDecoder 101; ActReadFile example_eof_read;
                              ActDecoder 201; ActReadFile example_eof_read]
                             ev s' Hin eq_refl)))
  end.
Defined.

(** ** Outcomes of the construction *)

Lemma quiet_app (ev1 ev2 : list event) :
  quiet ev1 -> quiet ev2 -> quiet (ev1 ++ ev2).
Proof. unfold quiet. intros H1 H2. now rewrite filter_app, H1, H2. Qed.

Lemma bind_starts_worker_last {A : Type} (m : M A) (k : A -> M implementation) :
  quiet (fst m) ->
  (forall a, snd m = Ok a -> starts_worker_last (k a)) ->
  starts_worker_last (bind m k).
Proof.
  intros Hq Hk. destruct m as [ev [a | e |]]; cbn [fst snd] in *.
  - specialize (Hk a eq_refl). unfold bind, starts_worker_last in *.
    destruct (k a) as [ev' [s | e |]]; cbn [fst snd] in *.
    + destruct Hk as (Hr & ev0 & -> & H0). split; [exact Hr|].
      exists (ev ++ ev0). split; [now rewrite app_assoc | now apply quiet_app].
    + now apply quiet_app.
    + now apply quiet_app.
  - exact Hq.
  - exact Hq.
Qed.

Lemma fix_time_base_quiet (v : option AVCodecContext) :
  fst (fix_time_base v) = [].
Proof.
  unfold fix_time_base. unfold_monad. destruct v as [c|]; [|reflexivity].
  destruct (num (time_base c) =? 1); [|reflexivity].
  destruct (den (time_base c) <=? 0); reflexivity.
Qed.

Lemma seek_frame_quiet (s : implementation) (frame flags errn : Z) :
  quiet (fst (seek_frame s frame flags errn)).
Proof.
  destruct (seek_frame_events s frame flags errn) as [E | [ts E]];
    unfold events in E; rewrite E; reflexivity.
Qed.

Lemma construct_starts_worker_last (loop : bool) (sf ef : Z) (f : av_file) :
  starts_worker_last (construct loop sf ef f).
Proof.
  unfold construct.
  apply bind_starts_worker_last; [destruct (_ && _); reflexivity | intros _ _].
  do 3 (apply bind_starts_worker_last; [reflexivity | intros _ _]).
  apply bind_starts_worker_last; [destruct (_ || _); reflexivity | intros _ _].
  apply bind_starts_worker_last; [reflexivity | intros _ _].
  apply bind_starts_worker_last; [destruct (_ <? _); reflexivity | intros _ _].
  destruct (open_stream (streams f) CODEC_TYPE_VIDEO (-1)) as [video vidx].
  apply bind_starts_worker_last.
  { destruct video; [rewrite fix_time_base_quiet|]; reflexivity. }
  intros video1 _.
  destruct (open_stream (streams f) CODEC_TYPE_AUDIO (-1)) as [audio aidx].
  apply bind_starts_worker_last.
  { destruct audio; [rewrite fix_time_base_quiet|]; reflexivity. }
  intros video2 _.
  apply bind_starts_worker_last.
  { destruct video2, audio; reflexivity. }
  intros _ _.
  apply bind_starts_worker_last.
  { destruct (negb _); [apply seek_frame_quiet | reflexivity]. }
  intros s1 _. cbn. split; [reflexivity|]. exists []. split; reflexivity.
Qed.

Lemma quiet_not_in (ev : list event) :
  quiet ev -> ~ In EvExecutorStart ev /\ ~ In EvBeginInvoke ev.
Proof.
  unfold quiet. intros H. split; intros Hin.
  - assert (Hf : In EvExecutorStart (filter starts_worker ev))
      by (apply filter_In; split; [exact Hin | reflexivity]).
    rewrite H in Hf. exact Hf.
  - assert (Hf : In EvBeginInvoke (filter starts_worker ev))
      by (apply filter_In; split; [exact Hin | reflexivity]).
    rewrite H in Hf. exact Hf.
Qed.

(** X4: the constructor starts the executor and schedules the first
    iteration as its last acts, after every check and after the initial
    seek: a construction that returns an object has started the worker
    exactly once, at the very end, and a construction that fails in any
    way has not started it. *)
Theorem X4_worker_started_last_and_only_on_success
    (loop : bool) (sf ef : Z) (f : av_file) :
  (forall s, snd (construct loop sf ef f) = Ok s ->
     is_running s = true
     /\ exists ev0,
          events (construct loop sf ef f)
          = ev0 ++ [EvExecutorStart; EvBeginInvoke; EvLogInfo "Started."]
          /\ ~ In EvExecutorStart ev0 /\ ~ In EvBeginInvoke ev0)
  /\ ((forall s, snd (construct loop sf ef f) <> Ok s) ->
      ~ In EvExecutorStart (events (construct loop sf ef f))
      /\ ~ In EvBeginInvoke (events (construct loop sf ef f))).
Proof.
  pose proof (construct_starts_worker_last loop sf ef f) as H.
  unfold starts_worker_last, events in *.
  destruct (snd (construct loop sf ef f)) as [s0 | e |].
  - destruct H as (Hr & ev0 & E & Hq). split.
    + intros s Hs. inversion Hs; subst. split; [exact Hr|].
      exists ev0. split; [exact E | now apply quiet_not_in].
    + intros Hn. exfalso. exact (Hn s0 eq_refl).
  - split; [intros s Hs; discriminate Hs | intros _; now apply quiet_not_in].
  - split; [intros s Hs; discriminate Hs | intros _; now apply quiet_not_in].
Qed.

Lemma bind_throws_only {A B : Type} (P : exception -> Prop)
    (m : M A) (k : A -> M B) :
  throws_only P m ->
  (forall a, snd m = Ok a -> throws_only P (k a)) ->
  throws_only P (bind m k).
Proof.
  unfold throws_only, bind. intros Hm Hk e.
  destruct m as [ev [a | e0 |]]; cbn [snd] in *.
  - specialize (Hk a eq_refl e). destruct (k a) as [ev' r]. exact Hk.
  - intros H. inversion H; subst. now apply Hm.
  - discriminate.
Qed.

Lemma throws_only_ok {A : Type} (P : exception -> Prop) (ev : list event) (a : A) :
  throws_only P (ev, Ok a).
Proof. intros e H. discriminate H. Qed.

Lemma fix_time_base_snd (v r : option AVCodecContext) :
  snd (fix_time_base v) = Ok r -> r = option_map fixed_time_base v.
Proof.
  destruct (fix_time_base v) as [ev o] eqn:E. cbn. intros ->.
  now apply fix_time_base_inv in E.
Qed.

Lemma fix_time_base_throws_only (P : exception -> Prop) (v : option AVCodecContext) :
  throws_only P (fix_time_base v).
Proof.
  unfold fix_time_base. unfold_monad. destruct v as [c|]; [|apply throws_only_ok].
  destruct (num (time_base c) =? 1); [|apply throws_only_ok].
  destruct (den (time_base c) <=? 0); [|apply throws_only_ok].
  intros e H. discriminate H.
Qed.

Lemma seek_frame_throws (s : implementation) (frame flags errn : Z) (e : exception) :
  snd (seek_frame s frame flags errn) = Throw e ->
  e = invalid_operation /\ errn < 0.
Proof.
  unfold seek_frame. unfold_monad.
  destruct (get_default_context s) as [c|]; [|discriminate].
  destruct (division_traps (time_base c)); [discriminate|].
  destruct (Z.ltb_spec errn 0) as [Hlt | Hge]; cbn; intros E; inversion E.
  split; [reflexivity | assumption].
Qed.

(** The exceptions a construction can end with, and why. *)
Lemma construct_throws (loop : bool) (sf ef : Z) (f : av_file) :
  throws_only
    (fun e =>
       (e = invalid_argument /\ window_rejected sf ef = true)
       \/ (e = file_read_error /\ window_rejected sf ef = false
           /\ (open_failed f = true \/ stream_info_failed f = true
               \/ no_stream_opened f))
       \/ (e = invalid_operation /\ window_rejected sf ef = false
           /\ open_failed f = false /\ stream_info_failed f = false
           /\ 0 < sf /\ av_seek_frame_ret f < 0))
    (construct loop sf ef f).
Proof.
  unfold construct, no_stream_opened.
  fold (window_rejected sf ef). fold (open_failed f). fold (stream_info_failed f).
  destruct (window_rejected sf ef) eqn:W.
  { intros e H. cbn in H. inversion H. left. split; reflexivity. }
  apply bind_throws_only; [apply throws_only_ok | intros _ _].
  do 3 (apply bind_throws_only; [apply throws_only_ok | intros _ _]).
  destruct (open_failed f) eqn:O.
  { apply bind_throws_only; [|intros a Ha; discriminate Ha].
    intros e H. inversion H. right. left. repeat split. now left. }
  apply bind_throws_only; [apply throws_only_ok | intros _ _].
  apply bind_throws_only; [apply throws_only_ok | intros _ _].
  destruct (stream_info_failed f) eqn:F.
  { apply bind_throws_only; [|intros a Ha; discriminate Ha].
    intros e H. inversion H. right. left. repeat split. right. now left. }
  apply bind_throws_only; [apply throws_only_ok | intros _ _].
  destruct (open_stream (streams f) CODEC_TYPE_VIDEO (-1)) as [video vidx].
  apply bind_throws_only.
  { destruct video; [apply fix_time_base_throws_only | apply throws_only_ok]. }
  intros video1 H1.
  assert (E1 : video1 = option_map fixed_time_base video).
  { destruct video; [now apply fix_time_base_snd in H1 | now inversion H1]. }
  destruct (open_stream (streams f) CODEC_TYPE_AUDIO (-1)) as [audio aidx].
  apply bind_throws_only.
  { destruct audio; [apply fix_time_base_throws_only | apply throws_only_ok]. }
  intros video2 H2.
  assert (E2 : video2 = None -> video = None).
  { destruct audio.
    - apply fix_time_base_snd in H2. subst. destruct video; [discriminate | reflexivity].
    - inversion H2. subst. destruct video; [discriminate | reflexivity]. }
  apply bind_throws_only.
  { destruct video2 as [c|]; [apply throws_only_ok|].
    destruct audio as [c|]; [apply throws_only_ok|].
    intros e H. inversion H. right. left. repeat split.
    right. right. cbn. split; [now apply E2 | reflexivity]. }
  intros _ _.
  apply bind_throws_only; [|intros a _; apply throws_only_ok].
  destruct (Z.eqb_spec (Z.max sf 0) 0) as [Ez | Ez]; cbn [negb];
    [apply throws_only_ok|].
  intros e H. apply seek_frame_throws in H. destruct H as [-> Hs].
  right. right. repeat split; try reflexivity; lia.
Qed.

Lemma construct_file_read_error (loop : bool) (sf ef : Z) (f : av_file) :
  window_rejected sf ef = false ->
  open_failed f = true \/ stream_info_failed f = true \/ no_stream_opened f ->
  snd (construct loop sf ef f) = Throw file_read_error.
Proof.
  intros W Hc. unfold construct.
  fold (window_rejected sf ef). fold (open_failed f).
  fold (stream_info_failed f). rewrite W.
  destruct (open_failed f) eqn:O; [reflexivity|].
  destruct (stream_info_failed f) eqn:F; [reflexivity|].
  destruct Hc as [Hc | [Hc | [Hv Ha]]]; [discriminate Hc | discriminate Hc |].
  destruct (open_stream (streams f) CODEC_TYPE_VIDEO (-1)) as [video vidx].
  destruct (open_stream (streams f) CODEC_TYPE_AUDIO (-1)) as [audio aidx].
  cbn [fst] in Hv, Ha. subst video audio. reflexivity.
Qed.

(** X5: the constructor fails with [invalid_argument] exactly when
    [end_frame] is positive and not above the clamped start frame; with
    [file_read_error] exactly when that check passes and the file cannot
    be opened, or its stream information cannot be read, or neither a
    video nor an audio stream can be opened; and with [invalid_operation]
    only when all that succeeded, the start frame is positive and the
    initial seek failed. *)
Theorem X5_construction_failures
    (loop : bool) (sf ef : Z) (f : av_file) :
  (snd (construct loop sf ef f) = Throw invalid_argument
   <-> window_rejected sf ef = true)
  /\ (snd (construct loop sf ef f) = Throw file_read_error
      <-> window_rejected sf ef = false
          /\ (open_failed f = true \/ stream_info_failed f = true
              \/ no_stream_opened f))
  /\ (snd (construct loop sf ef f) = Throw invalid_operation ->
      window_rejected sf ef = false
      /\ open_failed f = false /\ stream_info_failed f = false
      /\ 0 < sf /\ av_seek_frame_ret f < 0).
Proof.
  pose proof (construct_throws loop sf ef f) as HT. unfold throws_only in HT.
  split; [|split].
  - split.
    + intros H. destruct (HT _ H) as [[_ W] | [[E _] | [E _]]];
        [exact W | discriminate E | discriminate E].
    + intros W. unfold construct. fold (window_rejected sf ef).
      rewrite W. reflexivity.
  - split.
    + intros H. destruct (HT _ H) as [[E _] | [[_ W] | [E _]]];
        [discriminate E | exact W | discriminate E].
    + intros [W Hc]. now apply construct_file_read_error.
  - intros H. destruct (HT _ H) as [[E _] | [[E _] | [_ Hc]]];
      [discriminate E | discriminate E | exact Hc].
Qed.

(** ** The loop restart *)

(** X6: at an end of stream on a looping object the iteration seeks to
    [start_frame_] with [AVSEEK_FLAG_BACKWARD | AVSEEK_FLAG_FRAME].  When
    the seek fails the iteration stops the executor and returns from the
    handler: no flush marker is pushed, the threshold is not advanced, no
    ["seek"] tag is added and nothing is scheduled.  When it succeeds, each
    queue receives a flush marker and nothing else (the packet just read
    is dropped), the threshold is advanced by the window length, the tag
    is added and the next iteration is scheduled, the worker still
    running. *)
Theorem X6_loop_restart
    (s : implementation) (io : read_input) (c : AVCodecContext)
    (Heof : is_eof s (read_frame_ret io) = ret true)
    (Hloop : loop_ s = true)
    (Hc : get_default_context s = Some c)
    (Hd : 0 < den (time_base c)) :
  (seek_frame_ret io < 0 ->
   read_file s io
   = ([EvReadFrame;
       EvSeekFrame (seek_timestamp (time_base c) (start_frame_ s))
                   (Z.lor AVSEEK_FLAG_BACKWARD AVSEEK_FLAG_FRAME);
       EvExecutorStop; EvLogInfo "eof"; EvLogCurrentException],
      Ok (set_running s false, Returned)))
  /\ (0 <= seek_frame_ret io ->
      exists s',
        read_file s io
        = ([EvReadFrame;
            EvSeekFrame (seek_timestamp (time_base c) (start_frame_ s))
                        (Z.lor AVSEEK_FLAG_BACKWARD AVSEEK_FLAG_FRAME);
            EvAddTag "seek";
            EvUpdateValue "input-buffer"
              (Queue.size (video_packet_buffer_ s')) PACKET_BUFFER_COUNT;
            EvBeginInvoke],
           Ok (s', cond_wait s'))
        /\ running s' = running s
        /\ eof_count_ s'
           = int32 (eof_count_ s + int32 (end_frame_ s - start_frame_ s))
        /\ video_packet_buffer_ s'
           = fst (Queue.try_push (video_packet_buffer_ s) flush_marker)
        /\ audio_packet_buffer_ s'
           = fst (Queue.try_push (audio_packet_buffer_ s) flush_marker)).
Proof.
  split; intros Hs; unfold read_file, read_file_try; rewrite Heof, Hloop;
    cbn [bind ret emit app].
  - rewrite (seek_frame_fails s c _ _ _ Hc Hd Hs). reflexivity.
  - rewrite (seek_frame_ok s c _ _ _ Hc Hd Hs). cbn.
    exists (set_eof_count
              (set_audio_packet_buffer
                 (set_video_packet_buffer s
                    (fst (Queue.try_push (video_packet_buffer_ s) flush_marker)))
                 (fst (Queue.try_push (audio_packet_buffer_ s) flush_marker)))
              (int32 (eof_count_ s + int32 (end_frame_ s - start_frame_ s)))).
    split; [reflexivity|]. repeat split.
Qed.

Lemma X6_loop_restart_witness :
  read_file example_loop_object (mkRead AVERROR_EOF [] 0 (-1))
  = ([EvReadFrame; EvSeekFrame 0 9;
      EvExecutorStop; EvLogInfo "eof"; EvLogCurrentException],
     Ok (set_running example_loop_object false, Returned)).
Proof.
  refine (proj1 (X6_loop_restart example_loop_object
                   (mkRead AVERROR_EOF [] 0 (-1)) example_video_context
                   eq_refl eq_refl eq_refl eq_refl) eq_refl).
Defined.

(** ** Opening a stream *)

Lemma find_stream_first (l1 : list (option AVStream)) (st : AVStream)
    (l2 : list (option AVStream)) (type : Z) :
  Forall (other_slot type) l1 -> codec_type st = type ->
  find_stream (l1 ++ Some st :: l2) type = Some st.
Proof.
  intros H Ht. induction H as [|slot l1 Hs Hl IH]; cbn [app find_stream].
  - apply Z.eqb_eq in Ht. now rewrite Ht.
  - destruct slot as [x|]; [|exact IH].
    cbn in Hs. apply Z.eqb_neq in Hs. now rewrite Hs.
Qed.

Lemma find_stream_none (l : list (option AVStream)) (type : Z) :
  Forall (other_slot type) l -> find_stream l type = None.
Proof.
  intros H. induction H as [|slot l Hs Hl IH]; cbn [find_stream]; [reflexivity|].
  destruct slot as [x|]; [|exact IH].
  cbn in Hs. apply Z.eqb_neq in Hs. now rewrite Hs.
Qed.

(** X7: [open_stream] looks at the first non-null stream of the requested
    codec type and at no other.  It returns that stream's context and index
    when a decoder is found and [avcodec_open] does not return a negative
    value; otherwise it returns null and leaves the index argument as it
    was, whatever streams follow.  With no stream of the type it returns
    null as well. *)
Theorem X7_open_stream_first_match
    (l1 : list (option AVStream)) (st : AVStream)
    (l2 : list (option AVStream)) (type s_index : Z)
    (H1 : Forall (other_slot type) l1)
    (Ht : codec_type st = type) :
  open_stream (l1 ++ Some st :: l2) type s_index
  = (if decoder_found st && (0 <=? avcodec_open_ret st)
     then (Some (codec st), index st)
     else (None, s_index))
  /\ open_stream l1 type s_index = (None, s_index).
Proof.
  unfold open_stream. rewrite (find_stream_first l1 st l2 type H1 Ht).
  rewrite (find_stream_none l1 type H1). split; [|reflexivity].
  destruct (decoder_found st); cbn [negb andb]; [|reflexivity].
  destruct (Z.ltb_spec 0 (- avcodec_open_ret st));
    destruct (Z.leb_spec 0 (avcodec_open_ret st)); (reflexivity || lia).
Qed.

Lemma X7_open_stream_first_match_witness :
  open_stream [None; Some example_audio_stream;
               Some (mkStream 2 CODEC_TYPE_VIDEO example_video_context false 0);
               Some example_video_stream]
              CODEC_TYPE_VIDEO (-1)
  = (None, -1).
Proof.
  refine (proj1 (X7_open_stream_first_match
                   [None; Some example_audio_stream]
                   (mkStream 2 CODEC_TYPE_VIDEO example_video_context false 0)
                   [Some example_video_stream] CODEC_TYPE_VIDEO (-1) _ eq_refl)).
  repeat constructor. vm_compute. discriminate.
Defined.

(** ** The worker's state *)

Lemma step_running (s : implementation) (a : action) ev s' :
  step s a = (ev, Ok s') -> running s' = true -> running s = true.
Proof.
  destruct a as [io | | | n]; cbn [step].
  - destruct (running s) eqn:R; [reflexivity|].
    intros H. inversion H; subst. congruence.
  - intros H. cbn in H. inversion H; subst. exact (fun E => E).
  - intros H. cbn in H. inversion H; subst. exact (fun E => E).
  - intros H. cbn in H. inversion H; subst.
    unfold decoder_sets_frame_number.
    destruct (video_codec_context_ s); exact (fun E => E).
Qed.

Lemma read_file_running (s : implementation) (io : read_input) ev s' w :
  read_file s io = (ev, Ok (s', w)) -> running s' = true -> running s = true.
Proof.
  unfold_members. unfold_monad. intros H.
  repeat (break_match; try discriminate).
  all: repeat match goal with
         | E : (_, _) = (_, _) |- _ => inversion E; subst; clear E
         end.
  all: cbn; congruence.
Qed.

(** X8: the worker never comes back.  Whatever the worker, the consumers
    and the decoder do, an object that is running at the end of a run was
    running at its start; the same holds for one call of [read_file],
    also when it is made on a stopped object. *)
Theorem X8_worker_never_restarts
    (s : implementation) (acts : list action) (ev : list event)
    (s' : implementation)
    (Hrun : run s acts = (ev, Ok s'))
    (Hstopped : is_running s = false) :
  is_running s' = false
  /\ (forall io ev1 s1 w,
        read_file s io = (ev1, Ok (s1, w)) -> is_running s1 = false).
Proof.
  split.
  - revert s ev Hrun Hstopped.
    induction acts as [|a acts IH]; intros s ev Hrun Hstopped.
    + cbn in Hrun. inversion Hrun; subst. exact Hstopped.
    + cbn [run] in Hrun. apply bind_ok in Hrun.
      destruct Hrun as (ev1 & s1 & ev2 & E1 & E2 & ->).
      apply (IH s1 ev2 E2). unfold is_running in *.
      destruct (running s1) eqn:R; [|reflexivity].
      rewrite (step_running s a ev1 s1 E1 R) in Hstopped. discriminate.
  - intros io ev1 s1 w E. unfold is_running in *.
    destruct (running s1) eqn:R; [|reflexivity].
    rewrite (read_file_running s io ev1 s1 w E R) in Hstopped. discriminate.
Qed.

Lemma X8_worker_never_restarts_witness :
  exists ev s',
    run (set_running example_object false)
        [ActReadFile example_video_read; ActGetVideoPacket; ActDecoder 3]
    = (ev, Ok s')
    /\ is_running s' = false.
Proof.
  do 2 eexists. split; [vm_compute; reflexivity|].
  match goal with
  | |- is_running ?s' = false =>
      exact (proj1 (X8_worker_never_restarts
                      (set_running example_object false)
                      [ActReadFile example_video_read; ActGetVideoPacket;
                       ActDecoder 3] _ s' eq_refl eq_refl))
  end.
Defined.

(** ** The time-base correction *)

(** X9: the correction is idempotent: applied to a context it has already
    corrected it returns that context unchanged.  The constructor applies
    it to the video context a second time when an audio stream is open,
    without effect. *)
Theorem X9_time_base_correction_idempotent
    (c c1 : AVCodecContext)
    (H : fix_time_base (Some c) = ret (Some c1)) :
  fix_time_base (Some c1) = ret (Some c1).
Proof.
  pose proof H as Hinv. apply fix_time_base_inv in Hinv.
  destruct Hinv as [_ Hc1]. cbn [option_map] in Hc1. inversion Hc1; subst c1.
  unfold fix_time_base in H. unfold_monad.
  destruct (Z.eqb_spec (num (time_base c)) 1) as [E | E].
  - destruct (Z.leb_spec (den (time_base c)) 0) as [Hd | Hd]; [discriminate H|].
    rewrite fix_time_base_defined by (rewrite fixed_time_base_den; exact Hd).
    now rewrite fixed_time_base_twice.
  - unfold fixed_time_base. apply Z.eqb_neq in E. rewrite E.
    unfold fix_time_base. rewrite E. reflexivity.
Qed.

Lemma X9_time_base_correction_idempotent_witness :
  fix_time_base (Some (mkContext (mkRational 1000 25000) 0))
  = ret (Some (mkContext (mkRational 1000 25000) 0)).
Proof.
  apply (X9_time_base_correction_idempotent
           (mkContext (mkRational 1 25000) 0)).
  reflexivity.
Defined.

(** X10: a context with numerator 1 and a denominator of at least two
    digits, below 9999995, leaves the correction with a time base whose
    frame rate [den / num] lies between 10 and 100: the numerator becomes
    positive, [10 * num <= den < 100 * num].  (From 9999995 on the
    binary32 logarithm can round up and the rate can fall below 10.) *)
Theorem X10_corrected_rate_has_two_digits
    (c : AVCodecContext)
    (Hn : num (time_base c) = 1)
    (Hd : 10 <= den (time_base c))
    (Hu : den (time_base c) < 9999995) :
  exists c',
    fix_time_base (Some c) = ret (Some c')
    /\ den (time_base c') = den (time_base c)
    /\ 0 < num (time_base c')
    /\ 10 * num (time_base c') <= den (time_base c')
    /\ den (time_base c') < 100 * num (time_base c').
Proof.
  exists (fixed_time_base c).
  split; [apply fix_time_base_defined; lia|].
  split; [apply fixed_time_base_den|].
  rewrite fixed_time_base_den. unfold fixed_time_base.
  apply Z.eqb_eq in Hn. rewrite Hn. cbn [time_base num].
  rewrite float_log10_exact by lia.
  rewrite digits_log10.
  pose proof (digits_large _ Hd) as Hk.
  destruct (digits_spec (den (time_base c)) ltac:(lia)) as (_ & Hlo & Hhi).
  set (k := digits (den (time_base c))) in *.
  unfold pow10_int.
  destruct (Z.ltb_spec (k - 1 - 1) 0); [lia|].
  assert (E1 : 10 ^ (k - 1) = 10 * 10 ^ (k - 1 - 1)).
  { replace (k - 1) with (Z.succ (k - 1 - 1)) at 1 by lia.
    apply Z.pow_succ_r. lia. }
  assert (E2 : 10 ^ k = 10 * 10 ^ (k - 1)).
  { replace k with (Z.succ (k - 1)) at 1 by lia. apply Z.pow_succ_r. lia. }
  assert (0 < 10 ^ (k - 1 - 1)) by (apply Z.pow_pos_nonneg; lia).
  lia.
Qed.

Lemma X10_corrected_rate_has_two_digits_witness :
  exists c',
    fix_time_base (Some (mkContext (mkRational 1 30000) 0)) = ret (Some c')
    /\ den (time_base c') = 30000
    /\ 0 < num (time_base c')
    /\ 10 * num (time_base c') <= den (time_base c')
    /\ den (time_base c') < 100 * num (time_base c').
Proof.
  apply (X10_corrected_rate_has_two_digits (mkContext (mkRational 1 30000) 0)).
  - reflexivity.
  - cbn. lia.
  - cbn. lia.
Defined.

(** ** The seek timestamp *)

(** X11: for a frame number and a time base that are not negative (and
    while the [int] product does not overflow) the timestamp of
    [seek_frame] is never after the exact position
    [frame * num * AV_TIME_BASE / den], and falls short of it by less than
    one time unit per frame; it is exact when [den] divides
    [AV_TIME_BASE * num]. *)
Theorem X11_seek_timestamp_truncation
    (tb : AVRational) (frame : Z)
    (Hf : 0 <= frame)
    (Hd : 0 < den tb)
    (Hn : 0 <= num tb)
    (Hr : in_int32 (AV_TIME_BASE * num tb))
    (H64 : in_int64 (frame * (AV_TIME_BASE * num tb / den tb))) :
  seek_timestamp tb frame <= frame * num tb * AV_TIME_BASE / den tb
  /\ frame * num tb * AV_TIME_BASE / den tb <= seek_timestamp tb frame + frame
  /\ (0 < frame ->
      frame * num tb * AV_TIME_BASE / den tb < seek_timestamp tb frame + frame)
  /\ ((AV_TIME_BASE * num tb) mod den tb = 0 ->
      seek_timestamp tb frame = frame * num tb * AV_TIME_BASE / den tb).
Proof.
  set (a := AV_TIME_BASE * num tb) in *.
  set (d := den tb) in *.
  assert (Ha : 0 <= a) by (unfold a, AV_TIME_BASE; lia).
  assert (Hts : seek_timestamp tb frame = frame * (a / d)).
  { unfold seek_timestamp. fold a d.
    rewrite (int32_in_range a Hr).
    rewrite Z.quot_div_nonneg by lia.
    assert (Hq : in_int32 (a / d)).
    { unfold in_int32 in *. pose proof (Z.div_pos a d Ha Hd).
      assert (a / d <= a) by (apply Z.div_le_upper_bound; nia). lia. }
    rewrite (int32_in_range _ Hq). now apply int64_in_range. }
  rewrite Hts.
  replace (frame * num tb * AV_TIME_BASE) with (frame * a) by (unfold a; ring).
  pose proof (Z.div_mod a d ltac:(lia)) as Hdm.
  pose proof (Z.mod_pos_bound a d Hd) as Hrm.
  set (q := a / d) in *. set (r := a mod d) in *.
  assert (E : frame * a / d = frame * q + frame * r / d).
  { replace (frame * a) with ((frame * q) * d + frame * r) by (rewrite Hdm; ring).
    rewrite Z.div_add_l by lia. reflexivity. }
  rewrite E.
  assert (H0 : 0 <= frame * r / d) by (apply Z.div_pos; nia).
  assert (H1 : frame * r / d <= frame) by (apply Z.div_le_upper_bound; nia).
  split; [lia|]. split; [lia|]. split.
  - intros Hpos.
    assert (frame * r / d < frame) by (apply Z.div_lt_upper_bound; nia).
    lia.
  - intros Hz. rewrite Hz, Z.mul_0_r, Z.div_0_l by lia. lia.
Qed.

Lemma X11_seek_timestamp_truncation_witness :
  seek_timestamp (mkRational 1001 30000) 3
  <= 3 * 1001 * AV_TIME_BASE / 30000
  /\ 3 * 1001 * AV_TIME_BASE / 30000
     <= seek_timestamp (mkRational 1001 30000) 3 + 3.
Proof.
  destruct (X11_seek_timestamp_truncation (mkRational 1001 30000) 3)
    as (H1 & H2 & _).
  - cbn; lia.
  - reflexivity.
  - cbn; lia.
  - vm_compute. split; [discriminate | reflexivity].
  - vm_compute. split; [discriminate | reflexivity].
  - split; [exact H1 | exact H2].
Defined.

(** ** Consumers *)

(** X12: [has_packet] is true exactly when one of the two getters would
    hand out a buffer (a packet or a flush marker), and a getter called on
    an empty queue returns null and leaves the object as it was. *)
Theorem X12_has_packet_agrees_with_getters (s : implementation) :
  (has_packet s = true <->
   (exists p, option_map snd (value (get_video_packet s)) = Some (Some p))
   \/ (exists p, option_map snd (value (get_audio_packet s)) = Some (Some p)))
  /\ (Queue.empty (video_packet_buffer_ s) = true ->
      get_video_packet s = ([EvNotifyAll], Ok (s, None)))
  /\ (Queue.empty (audio_packet_buffer_ s) = true ->
      get_audio_packet s = ([EvNotifyAll], Ok (s, None))).
Proof.
  unfold has_packet, get_video_packet, get_audio_packet, get_packet,
    Queue.try_pop, Queue.empty, value.
  destruct s as [vc ac lp vi ai sf ef ec [cv iv] [ca ia] ex rn].
  cbn [video_packet_buffer_ audio_packet_buffer_ Queue.items Queue.capacity
       bind ret emit fst snd app option_map set_video_packet_buffer
       set_audio_packet_buffer].
  split; [|split].
  - destruct iv as [|x iv], ia as [|y ia]; cbn; split.
    + discriminate.
    + intros [[p H] | [p H]]; discriminate H.
    + intros _. right. now exists y.
    + reflexivity.
    + intros _. left. now exists x.
    + reflexivity.
    + intros _. left. now exists x.
    + reflexivity.
  - destruct iv; [reflexivity | discriminate].
  - destruct ia; [reflexivity | discriminate].
Qed.

(** ** Growth of the queues *)

(** X13: an iteration of the worker never removes or reorders buffered
    packets: each queue keeps what it held, in the same order, and gains
    at most one buffer at its back. *)
Theorem X13_iteration_appends_at_most_one
    (s : implementation) (io : read_input) (ev : list event)
    (s' : implementation) (w : worker)
    (H : read_file s io = (ev, Ok (s', w))) :
  (exists tail,
      Queue.items (video_packet_buffer_ s')
      = Queue.items (video_packet_buffer_ s) ++ tail
      /\ (length tail <= 1)%nat)
  /\ (exists tail,
         Queue.items (audio_packet_buffer_ s')
         = Queue.items (audio_packet_buffer_ s) ++ tail
         /\ (length tail <= 1)%nat).
Proof.
  assert (P : forall q x, exists tail,
             Queue.items (fst (Queue.try_push q x)) = Queue.items q ++ tail
             /\ (length tail <= 1)%nat).
  { intros q x. destruct (try_push_items q x) as [E | E]; rewrite E.
    - exists []. rewrite app_nil_r. split; [reflexivity | cbn; lia].
    - exists [x]. split; [reflexivity | cbn; lia]. }
  assert (R : forall q : Queue.t, exists tail,
             Queue.items q = Queue.items q ++ tail /\ (length tail <= 1)%nat).
  { intros q. exists []. rewrite app_nil_r. split; [reflexivity | cbn; lia]. }
  revert H. unfold_members. unfold_monad. intros H.
  repeat (break_match; try discriminate).
  all: repeat match goal with
         | E : (_, _) = (_, _) |- _ => inversion E; subst; clear E
         end.
  all: cbn [video_packet_buffer_ audio_packet_buffer_ set_running
            set_eof_count set_video_packet_buffer set_audio_packet_buffer].
  all: split; first [apply P | apply R].
Qed.

Lemma X13_iteration_appends_at_most_one_witness :
  exists tail,
    Queue.items (video_packet_buffer_
                   (set_video_packet_buffer example_loop_object
                      (fst (Queue.try_push
                              (video_packet_buffer_ example_loop_object)
                              example_packet))))
    = Queue.items (video_packet_buffer_ example_loop_object) ++ tail
    /\ (length tail <= 1)%nat.
Proof.
  exact (proj1 (X13_iteration_appends_at_most_one example_loop_object
                  example_video_read _ _ _ eq_refl)).
Defined.

(** ** Runs of a well-formed object *)

Lemma read_file_well_formed (s : implementation) (io : read_input) ev s' w :
  read_file s io = (ev, Ok (s', w)) -> well_formed s -> well_formed s'.
Proof.
  intros E (c & Hc & Hd).
  destruct (read_file_frame s io ev s' w E) as (Hv & Ha & _).
  exists c. split; [|exact Hd].
  unfold get_default_context in *. now rewrite Hv, Ha.
Qed.

Lemma step_well_formed (s : implementation) (a : action) :
  well_formed s ->
  exists ev s', step s a = (ev, Ok s') /\ well_formed s'.
Proof.
  intros Hw. destruct a as [io | | | n]; cbn [step].
  - destruct (running s); [|do 2 eexists; split; [reflexivity | exact Hw]].
    destruct (read_file_defined s io Hw) as (ev & s' & w & E).
    rewrite E. cbn. do 2 eexists. split; [reflexivity|].
    exact (read_file_well_formed s io ev s' w E Hw).
  - cbn. do 2 eexists. split; [reflexivity | exact Hw].
  - cbn. do 2 eexists. split; [reflexivity | exact Hw].
  - cbn. do 2 eexists. split; [reflexivity|].
    destruct Hw as (c & Hc & Hd).
    unfold decoder_sets_frame_number, get_default_context in *.
    destruct (video_codec_context_ s) as [vc|] eqn:V.
    + inversion Hc; subst. exists (set_frame_number c n). split; [reflexivity | exact Hd].
    + cbn. rewrite Hc. exists (set_frame_number c n). split; [reflexivity | exact Hd].
Qed.

(** X14: on an object that has a default context with a positive
    time-base denominator, every run of worker iterations, consumer
    calls and decoder updates is defined and ends with an object of the
    same kind: no member function dereferences a null context, no division
    traps, and no exception leaves [read_file] or a getter, whatever
    libavformat returns. *)
Theorem X14_runs_are_defined
    (s : implementation) (acts : list action) (Hw : well_formed s) :
  exists ev s', run s acts = (ev, Ok s') /\ well_formed s'.
Proof.
  revert s Hw. induction acts as [|a acts IH]; intros s Hw; cbn [run].
  - do 2 eexists. split; [reflexivity | exact Hw].
  - destruct (step_well_formed s a Hw) as (ev1 & s1 & E1 & Hw1).
    destruct (IH s1 Hw1) as (ev2 & s2 & E2 & Hw2).
    rewrite E1. cbn [bind]. rewrite E2.
    do 2 eexists. split; [reflexivity | exact Hw2].
Qed.

Lemma X14_runs_are_defined_witness :
  exists ev s',
    run example_loop_object
        [ActReadFile example_failed_read; ActGetAudioPacket;
         ActReadFile example_eof_read]
    = (ev, Ok s')
    /\ well_formed s'.
Proof.
  apply (X14_runs_are_defined example_loop_object).
  exists example_video_context. split; reflexivity.
Defined.

(** ** Backpressure on a file with one stream *)

(** X15: an object constructed on a file with a video stream and no
    audio stream, with [start_frame <= 0] and without loop, never waits:
    its audio queue stays empty, so the condition of the wait is false
    after every iteration, however many video packets are buffered and
    not consumed. *)
Theorem X15_single_stream_never_waits
    (sf ef : Z) (f : av_file) (vc : AVCodecContext) (vidx : Z)
    (Hsf : sf <= 0)
    (Hwin : (0 <? ef) && (ef <=? Z.max sf 0) = false)
    (Ho : 0 <= av_open_input_file_ret f)
    (Hn : format_context_null f = false)
    (Hf : 0 <= av_find_stream_info_ret f)
    (Hv : open_stream (streams f) CODEC_TYPE_VIDEO (-1) = (Some vc, vidx))
    (Ha : fst (open_stream (streams f) CODEC_TYPE_AUDIO (-1)) = None)
    (Hd : 0 < den (time_base vc))
    (Hs : 0 <= av_seek_frame_ret f) :
  exists ev s,
    construct false sf ef f = (ev, Ok s)
    /\ forall acts io, Forall valid_action acts -> 0 <= packet_stream_index io ->
         exists ev' s' ev1 s1 w,
           run s acts = (ev', Ok s')
           /\ read_file s' io = (ev1, Ok (s1, w))
           /\ w <> Waiting
           /\ Queue.items (audio_packet_buffer_ s1) = [].
Proof.
  destruct (construct_succeeds false sf ef f vc vidx Hwin Ho Hn Hf Hv Hd Hs)
    as (ev & s & E).
  exists ev, s. split; [exact E|].
  destruct (construct_inv _ _ _ _ _ _ E)
    as (_ & Hl & _ & _ & _ & _ & _ & Hvc & _ & _ & Hai & Hq0 & _).
  rewrite Hv in Hvc. cbn [fst option_map] in Hvc.
  rewrite (open_stream_none _ _ _ Ha) in Hai.
  assert (Ez : Z.max sf 0 = 0) by lia.
  destruct (Hq0 Ez) as [_ Hqa].
  assert (Hvo : video_only s).
  { split; [|split].
    - exists (fixed_time_base vc). split; [exact Hvc|].
      rewrite fixed_time_base_den. lia.
    - exact Hai.
    - rewrite Hqa. constructor. }
  assert (Hns : never_seeks s) by (split; [exact Hl | now rewrite Hqa]).
  intros acts io Hacts Hio.
  destruct (run_video_only acts s Hvo Hacts) as (ev' & s' & E' & Hvo' & Hns').
  destruct (read_file_video_only s' io Hvo' Hio) as (ev1 & s1 & w & E1 & _ & Hns1).
  exists ev', s', ev1, s1, w. split; [exact E'|]. split; [exact E1|].
  destruct (Hns1 (Hns' Hns)) as [_ He]. split; [|exact He].
  intros Hw. apply (read_file_worker s' io ev1 s1 w E1) in Hw.
  apply wait_condition_iff in Hw. destruct Hw as (_ & _ & Hsz).
  unfold Queue.size in Hsz. rewrite He in Hsz. cbn in Hsz.
  unfold PACKET_BUFFER_COUNT in Hsz. lia.
Qed.

Lemma X15_single_stream_never_waits_witness :
  exists ev s,
    construct false 0 (-1) example_video_file = (ev, Ok s)
    /\ forall acts io, Forall valid_action acts -> 0 <= packet_stream_index io ->
         exists ev' s' ev1 s1 w,
           run s acts = (ev', Ok s')
           /\ read_file s' io = (ev1, Ok (s1, w))
           /\ w <> Waiting
           /\ Queue.items (audio_packet_buffer_ s1) = [].
Proof.
  apply (X15_single_stream_never_waits 0 (-1) example_video_file
           (mkContext (mkRational 1 25000) 0) 0).
  - vm_compute; discriminate.
  - reflexivity.
  - vm_compute; discriminate.
  - reflexivity.
  - vm_compute; discriminate.
  - reflexivity.
  - reflexivity.
  - vm_compute; reflexivity.
  - vm_compute; discriminate.
Defined.

(** ** The constructed object *)


